(** * Homebrew tap formula pipe (internal/pipe/brew/brew.go)

    A shallow embedding of the brew pipe of goreleaser: artifact selection,
    install-line inference, formula data assembly, formula rendering with
    its sanitisation pass, and publication.

    Go strings are byte strings; they are modelled by [string] (a list of
    8-bit characters).  The functions of Go's [strings] package that the
    pipe calls are modelled on ASCII text: bytes above 0x7F belong to
    multi-byte runes, which the model passes through unchanged. *)

From Stdlib Require Import Ascii String.
From stdpp Require Import base strings list gmap fin_maps sorting.
From Stdlib Require Import Lia.

Local Open Scope string_scope.

(** ** Errors and results *)

(** The values of Go's [error] that the pipe produces or propagates. *)
Inductive error : Type :=
  | ErrSkip (reason : string)
  | ErrNoArchivesFound (goarm goamd64 : string) (ids : list string)
  | ErrMultipleArchivesSameOS
  | ErrorString (msg : string)
  | ErrWrap (msg : string) (cause : error).

(** A Go result pair [(value, err)]. *)
Inductive result (A : Type) : Type :=
  | Ok (a : A)
  | Err (e : error).
Arguments Ok {A} a.
Arguments Err {A} e.

(** ** The [strings] package *)

Module strings.

Definition code (c : ascii) : nat := nat_of_ascii c.

Definition between (lo hi : nat) (c : ascii) : bool :=
  (lo <=? code c)%nat && (code c <=? hi)%nat.

Definition isLower (c : ascii) : bool := between 97 122 c.
Definition isUpper (c : ascii) : bool := between 65 90 c.
Definition isDigit (c : ascii) : bool := between 48 57 c.

(** [unicode.IsSpace] on the Latin-1 control and blank characters that
    fit one byte of ASCII: tab, line feed, vertical tab, form feed,
    carriage return, space. *)
Definition isSpace (c : ascii) : bool :=
  between 9 13 c || (code c =? 32)%nat.

(** [strings.isSeparator]: ASCII alphanumerics and underscore are not
    separators; every other ASCII character is. *)
Definition isSeparator (c : ascii) : bool :=
  if (code c <=? 127)%nat
  then negb (isDigit c || isLower c || isUpper c || (code c =? 95)%nat)
  else false.

(** [unicode.ToTitle] on ASCII. *)
Definition toTitle (c : ascii) : ascii :=
  if isLower c then ascii_of_nat (code c - 32) else c.

(** [strings.Title]: the closure remembers the previous rune, starting
    from a space. *)
Fixpoint Title_from (prev : ascii) (s : string) : string :=
  match s with
  | EmptyString => EmptyString
  | String r s' =>
      String (if isSeparator prev then toTitle r else r) (Title_from r s')
  end.

Definition Title (s : string) : string := Title_from " "%char s.

(** [strings.ReplaceAll s old new] for a non-empty [old]: scan from the
    left, replacing non-overlapping occurrences.  [skip] counts the bytes
    of the occurrence being stepped over. *)
Fixpoint replace_from (skip : nat) (s old new : string) : string :=
  match s with
  | EmptyString => EmptyString
  | String c s' =>
      match skip with
      | S k => replace_from k s' old new
      | O =>
          if String.prefix old s
          then new +:+ replace_from (String.length old - 1) s' old new
          else String c (replace_from 0 s' old new)
      end
  end.

(** An empty [old] matches before every character and at the end. *)
Fixpoint replace_empty (s new : string) : string :=
  match s with
  | EmptyString => new
  | String c s' => new +:+ String c (replace_empty s' new)
  end.

Definition ReplaceAll (s old new : string) : string :=
  match old with
  | EmptyString => replace_empty s new
  | String _ _ => replace_from 0 s old new
  end.

(** [strings.TrimRight s cutset]. *)
Fixpoint inCutset (c : ascii) (cutset : string) : bool :=
  match cutset with
  | EmptyString => false
  | String d cutset' => Ascii.eqb c d || inCutset c cutset'
  end.

Fixpoint TrimRight (s cutset : string) : string :=
  match s with
  | EmptyString => EmptyString
  | String c s' =>
      match TrimRight s' cutset with
      | EmptyString => if inCutset c cutset then EmptyString else String c EmptyString
      | t => String c t
      end
  end.

(** [strings.TrimSpace]. *)
Fixpoint trimLeftSpace (s : string) : string :=
  match s with
  | EmptyString => EmptyString
  | String c s' => if isSpace c then trimLeftSpace s' else s
  end.

Fixpoint trimRightSpace (s : string) : string :=
  match s with
  | EmptyString => EmptyString
  | String c s' =>
      match trimRightSpace s' with
      | EmptyString => if isSpace c then EmptyString else String c EmptyString
      | t => String c t
      end
  end.

Definition TrimSpace (s : string) : string := trimRightSpace (trimLeftSpace s).

(** [strings.Split s sep] for a one-byte separator: always at least one
    field. *)
Fixpoint Split (s : string) (sep : ascii) : list string :=
  match s with
  | EmptyString => [EmptyString]
  | String c s' =>
      if Ascii.eqb c sep then EmptyString :: Split s' sep
      else match Split s' sep with
           | [] => [String c EmptyString]
           | f :: fs => String c f :: fs
           end
  end.

End strings.

(** ** Name mangling *)

(** [formulaNameFor] turns the formula name into a form that resembles a
    Ruby class name.  The order of the replacements matters. *)
Definition formulaNameFor (name : string) : string :=
  let name := strings.ReplaceAll name "-" " " in
  let name := strings.ReplaceAll name "_" " " in
  let name := strings.ReplaceAll name "." "" in
  let name := strings.ReplaceAll name "@" "AT" in
  strings.ReplaceAll (strings.Title name) " " "".


(** ** Configuration ([pkg/config]) *)

(** Address of the backing array of a slice that the pipe sorts in place. *)
Definition loc := nat.

(** Modelled from the spec: the recipe types of [pkg/config], which is not
    part of the pipe; they have the fields that brew.go reads and writes. *)
Module CommitAuthor.
Record t := mk { Name : string; Email : string }.
End CommitAuthor.

Module BrewDependency.
Record t := mk { Name : string; Type' : string; Version : string }.
End BrewDependency.

Module GitRepoRef.
Record t := mk { URL : string; SSHCommand : string; PrivateKey : string }.
End GitRepoRef.

Module PullRequestBase.
Record t := mk { Owner : string; Name : string; Branch : string }.
End PullRequestBase.

Module PullRequest.
Record t := mk { Enabled : bool; Base : PullRequestBase.t; Draft : bool }.
End PullRequest.

Module RepoRef.
Record t := mk {
  Owner : string;
  Name : string;
  Token : string;
  Branch : string;
  Git : GitRepoRef.t;
  PullRequest : PullRequest.t
}.
End RepoRef.

(** Modelled from the spec: [config.Homebrew], one recipe of
    [ctx.Config.Brews].  A Go struct is copied field by
    field: [Dependencies] is a slice, so a copy of the recipe still points
    to the same backing array, which lives in the heap of the [World]
    below.  [IDs] and [Conflicts] are slices too, but the pipe only reads
    them, so they are kept as values. *)
Module Homebrew.
Record t := mk {
  Name : string;
  Repository : RepoRef.t;
  CommitAuthor : CommitAuthor.t;
  CommitMessageTemplate : string;
  Folder : string;
  Caveats : string;
  Install : string;
  ExtraInstall : string;
  PostInstall : string;
  Dependencies : loc;
  Test : string;
  Conflicts : list string;
  Description : string;
  Homepage : string;
  License : string;
  SkipUpload : string;
  DownloadStrategy : string;
  URLTemplate : string;
  CustomRequire : string;
  CustomBlock : string;
  IDs : list string;
  Goarm : string;
  Goamd64 : string;
  Service : string;
  Plist : string
}.

(** Assignments to a field of a local copy. *)
Definition set_Name (v : string) (b : t) : t :=
  mk v (Repository b) (CommitAuthor b) (CommitMessageTemplate b) (Folder b)
     (Caveats b) (Install b) (ExtraInstall b) (PostInstall b) (Dependencies b)
     (Test b) (Conflicts b) (Description b) (Homepage b) (License b)
     (SkipUpload b) (DownloadStrategy b) (URLTemplate b) (CustomRequire b)
     (CustomBlock b) (IDs b) (Goarm b) (Goamd64 b) (Service b) (Plist b).

Definition set_Repository (v : RepoRef.t) (b : t) : t :=
  mk (Name b) v (CommitAuthor b) (CommitMessageTemplate b) (Folder b)
     (Caveats b) (Install b) (ExtraInstall b) (PostInstall b) (Dependencies b)
     (Test b) (Conflicts b) (Description b) (Homepage b) (License b)
     (SkipUpload b) (DownloadStrategy b) (URLTemplate b) (CustomRequire b)
     (CustomBlock b) (IDs b) (Goarm b) (Goamd64 b) (Service b) (Plist b).

Definition set_SkipUpload (v : string) (b : t) : t :=
  mk (Name b) (Repository b) (CommitAuthor b) (CommitMessageTemplate b) (Folder b)
     (Caveats b) (Install b) (ExtraInstall b) (PostInstall b) (Dependencies b)
     (Test b) (Conflicts b) (Description b) (Homepage b) (License b)
     v (DownloadStrategy b) (URLTemplate b) (CustomRequire b)
     (CustomBlock b) (IDs b) (Goarm b) (Goamd64 b) (Service b) (Plist b).

Definition set_URLTemplate (v : string) (b : t) : t :=
  mk (Name b) (Repository b) (CommitAuthor b) (CommitMessageTemplate b) (Folder b)
     (Caveats b) (Install b) (ExtraInstall b) (PostInstall b) (Dependencies b)
     (Test b) (Conflicts b) (Description b) (Homepage b) (License b)
     (SkipUpload b) (DownloadStrategy b) v (CustomRequire b)
     (CustomBlock b) (IDs b) (Goarm b) (Goamd64 b) (Service b) (Plist b).
End Homebrew.

(** ** Artifacts ([internal/artifact]) *)

Module artifact.

(** Modelled from the spec: [artifact.Type], the kinds of artifact the pipe
    distinguishes. *)
Inductive Type' : Type :=
  | UploadableArchive
  | UploadableBinary
  | UploadableFile
  | Binary
  | LinuxPackage
  | BrewTap.

#[global] Instance Type_eq_dec : EqDecision Type'.
Proof. solve_decision. Defined.

(** Modelled from the spec: a value of the open-ended side-channel map
    [Extra map[string]interface{}] of an artifact. *)
Inductive ExtraValue : Type :=
  | XString (s : string)
  | XStrings (l : list string)
  | XBool (b : bool)
  | XHomebrew (b : Homebrew.t).

(** Modelled from the spec: [artifact.Artifact], with the fields that
    brew.go reads and writes. *)
Record Artifact := mk {
  Name : string;
  Path : string;
  Goos : string;
  Goarch : string;
  Goarm : string;
  Goamd64 : string;
  Type_ : Type';
  Extra : gmap string ExtraValue
}.

(** Modelled from the spec: the names of the extra attributes, which
    [internal/artifact] declares. *)
Definition ExtraBinary : string := "Binary".
Definition ExtraBinaries : string := "Binaries".
Definition ExtraID : string := "ID".
Definition ExtraFormat : string := "Format".
Definition ExtraReplaces : string := "Replaces".

(** Modelled from the spec: [artifact.ExtraOr], the typed view of one
    extra attribute with a default for an absent or mismatched entry. *)
Definition ExtraOr_string (a : Artifact) (key : string) (or : string) : string :=
  match Extra a !! key with
  | Some (XString s) => s
  | _ => or
  end.

Definition ExtraOr_strings (a : Artifact) (key : string) (or : list string)
  : list string :=
  match Extra a !! key with
  | Some (XStrings l) => l
  | _ => or
  end.

Definition ExtraOr_bool (a : Artifact) (key : string) (or : bool) : bool :=
  match Extra a !! key with
  | Some (XBool b) => b
  | _ => or
  end.

(** Modelled from the spec: [artifact.Extra], the typed view of one extra
    attribute, with a typed failure if it is absent or mismatched. *)
Definition Extra_Homebrew (a : Artifact) (key : string) : result Homebrew.t :=
  match Extra a !! key with
  | Some (XHomebrew b) => Ok b
  | _ => Err (ErrorString ("extra attribute " +:+ key +:+ " absent or mismatched"))
  end.

(** Modelled from the spec: the composable predicate filters of
    [internal/artifact]. *)
Definition Filter := Artifact → bool.

Definition str_eqb (a b : string) : bool := bool_decide (a = b).

Definition ByGoos (s : string) : Filter := λ a, str_eqb (Goos a) s.
Definition ByGoarch (s : string) : Filter := λ a, str_eqb (Goarch a) s.
Definition ByGoarm (s : string) : Filter := λ a, str_eqb (Goarm a) s.
Definition ByGoamd64 (s : string) : Filter := λ a, str_eqb (Goamd64 a) s.
Definition ByType (t : Type') : Filter := λ a, bool_decide (Type_ a = t).
Definition ByFormats (formats : list string) : Filter :=
  λ a, existsb (str_eqb (ExtraOr_string a ExtraFormat "")) formats.
Definition ByIDs (ids : list string) : Filter :=
  λ a, existsb (str_eqb (ExtraOr_string a ExtraID "")) ids.
Definition OnlyReplacingUnibins : Filter :=
  λ a, ExtraOr_bool a ExtraReplaces true.

Definition Or (fs : list Filter) : Filter := λ a, existsb (λ f, f a) fs.
Definition And (fs : list Filter) : Filter := λ a, forallb (λ f, f a) fs.

End artifact.

(** ** Library functions used by the pipe *)

(** Bind of the error monad: the [if err != nil { return ..., err }] idiom. *)
Definition result_bind {A B : Type} (r : result A) (k : A → result B) : result B :=
  match r with
  | Ok a => k a
  | Err e => Err e
  end.

Notation "'let?' x := r 'in' k" := (result_bind r (λ x, k))
  (at level 10, x pattern, r at level 100, k at level 200,
   format "'[v' 'let?'  x  :=  r  'in' '/' k ']'").

Module strconv.

Definition dquote : ascii := "034"%char.
Definition backslash : ascii := "092"%char.

Definition hexDigit (n : nat) : ascii :=
  if (n <? 10)%nat then ascii_of_nat (48 + n) else ascii_of_nat (87 + n).

(** The escape of one ASCII character inside a double-quoted Go string
    literal. *)
Definition escape (c : ascii) : string :=
  let n := strings.code c in
  if Ascii.eqb c dquote then String backslash (String dquote "")
  else if Ascii.eqb c backslash then String backslash (String backslash "")
  else if (n =? 7)%nat then String backslash "a"
  else if (n =? 8)%nat then String backslash "b"
  else if (n =? 12)%nat then String backslash "f"
  else if (n =? 10)%nat then String backslash "n"
  else if (n =? 13)%nat then String backslash "r"
  else if (n =? 9)%nat then String backslash "t"
  else if (n =? 11)%nat then String backslash "v"
  else if (n <? 32)%nat || (n =? 127)%nat
       then String backslash
              (String "x" (String (hexDigit (n / 16)) (String (hexDigit (n mod 16)) "")))
  else String c "".

Fixpoint escapes (s : string) : string :=
  match s with
  | EmptyString => EmptyString
  | String c s' => escape c +:+ escapes s'
  end.

(** [strconv.Quote], which [fmt] uses for the verb [%q]. *)
Definition Quote (s : string) : string :=
  String dquote (escapes s +:+ String dquote "").

End strconv.

Module sort.

(** [sort.Slice] on a slice of at most twelve elements is an insertion
    sort: each element in turn moves left while [less] puts it before its
    left neighbour.  [insertLeft] works on the reversed prefix. *)
Section Slice.
Context {A : Type} (less : A → A → bool).

Fixpoint insertLeft (x : A) (prefix : list A) : list A :=
  match prefix with
  | [] => [x]
  | y :: prefix' => if less x y then y :: insertLeft x prefix' else x :: prefix
  end.

Definition Slice (l : list A) : list A :=
  rev (fold_left (λ prefix x, insertLeft x prefix) l []).
End Slice.

(** [sort.Strings]: ascending byte-wise order.  Its result is determined
    by the elements alone, whatever the algorithm. *)
Definition Strings (l : list string) : list string := merge_sort String.le l.

End sort.

(** [keys] collects the keys of a map; Go enumerates them in an unspecified
    order, and every caller sorts the result. *)
Definition keys (m : gmap string bool) : list string := (map_to_list m).*1.

(** ** Template data ([template.go]) *)

(** Modelled from the spec: [releasePackage] of template.go, the rendering
    unit of one artifact. *)
Record releasePackage := mkReleasePackage {
  DownloadURL : string;
  SHA256 : string;
  OS : string;
  Arch : string;
  DownloadStrategy : string;
  Install : list string
}.

(** Modelled from the spec: [templateData] of template.go, the rendering
    context.  [Dependencies] holds the elements of the recipe's slice as
    they are when the template is executed. *)
Record templateData := mkTemplateData {
  Name : string;
  Desc : string;
  Homepage : string;
  Version : string;
  License : string;
  Caveats : list string;
  Dependencies : list BrewDependency.t;
  Conflicts : list string;
  Plist : string;
  Service : list string;
  PostInstall : list string;
  Tests : list string;
  CustomRequire : string;
  CustomBlock : list string;
  LinuxPackages : list releasePackage;
  MacOSPackages : list releasePackage;
  HasOnlyAmd64MacOsPkg : bool
}.

Definition set_LinuxPackages (v : list releasePackage) (d : templateData) :=
  mkTemplateData (Name d) (Desc d) (Homepage d) (Version d) (License d) (Caveats d)
    (Dependencies d) (Conflicts d) (Plist d) (Service d) (PostInstall d) (Tests d)
    (CustomRequire d) (CustomBlock d) v (MacOSPackages d) (HasOnlyAmd64MacOsPkg d).

Definition set_MacOSPackages (v : list releasePackage) (d : templateData) :=
  mkTemplateData (Name d) (Desc d) (Homepage d) (Version d) (License d) (Caveats d)
    (Dependencies d) (Conflicts d) (Plist d) (Service d) (PostInstall d) (Tests d)
    (CustomRequire d) (CustomBlock d) (LinuxPackages d) v (HasOnlyAmd64MacOsPkg d).

Definition set_HasOnlyAmd64MacOsPkg (v : bool) (d : templateData) :=
  mkTemplateData (Name d) (Desc d) (Homepage d) (Version d) (License d) (Caveats d)
    (Dependencies d) (Conflicts d) (Plist d) (Service d) (PostInstall d) (Tests d)
    (CustomRequire d) (CustomBlock d) (LinuxPackages d) (MacOSPackages d) v.

(** ** Hosting clients ([internal/client]) *)

Module client.

(** Modelled from the spec: [client.Repo], with the fields that brew.go
    sets. *)
Record Repo := mkRepo { Owner : string; Name : string; Branch : string }.

(** Modelled from the spec: the [Client] interface (file creation, release
    URL template).  A client that also implements
    [PullRequestOpener] carries its [OpenPullRequest] method. *)
Record Client := mkClient {
  ReleaseURLTemplate : result string;
  CreateFile : CommitAuthor.t → Repo → string → string → string → result unit;
  PullRequestOpener : option (Repo → Repo → string → bool → result unit)
}.

End client.

(** A call sent to a hosting service or a git remote. *)
Inductive NetCall : Type :=
  | CreateFileCall (author : CommitAuthor.t) (repo : client.Repo)
      (content path message : string)
  | OpenPullRequestCall (base head : client.Repo) (title : string) (draft : bool).

(** ** The collaborators of the pipe

    The placeholder-substitution engine, the digest of an artifact, the
    structural formula template, path handling and the client factory are
    outside the pipe.  They are fixed for one run and do not write to the
    state the pipe owns. *)
Class Collaborators := {
  (** [tmpl.New(ctx).Apply] *)
  tmpl_Apply : string → result string;
  (** [tmpl.New(ctx).WithArtifact(art).Apply] *)
  tmpl_ApplyWithArtifact : artifact.Artifact → string → result string;
  (** [art.Checksum(algorithm)] *)
  Checksum : artifact.Artifact → string → result string;
  (** parsing [formulaTemplate] and executing it on the data *)
  executeFormulaTemplate : templateData → result string;
  (** [client.TemplateRef] *)
  TemplateRef : (string → result string) → RepoRef.t → result RepoRef.t;
  (** [client.RepoFromRef] *)
  RepoFromRef : RepoRef.t → client.Repo;
  (** [commitauthor.Get] *)
  commitauthor_Get : CommitAuthor.t → result CommitAuthor.t;
  (** [client.NewIfToken] *)
  NewIfToken : client.Client → string → result client.Client;
  (** [client.NewGitUploadClient] *)
  NewGitUploadClient : string → client.Client;
  (** [filepath.Join], [filepath.Dir], [path.Join] *)
  filepath_Join : list string → string;
  filepath_Dir : string → string;
  path_Join : list string → string;
  (** whether [os.MkdirAll] and [os.WriteFile] fail on a path *)
  MkdirAll_error : string → option error;
  WriteFile_error : string → option error
}.

(** ** The state the pipe reads and writes *)

Record World := mkWorld {
  Brews : list Homebrew.t;                      (* ctx.Config.Brews *)
  Dist : string;                                (* ctx.Config.Dist *)
  ctxVersion : string;                          (* ctx.Version *)
  Prerelease : string;                          (* ctx.Semver.Prerelease *)
  Artifacts : list artifact.Artifact;           (* ctx.Artifacts *)
  heap : gmap loc (list BrewDependency.t);      (* backing arrays *)
  dirs : list string;                           (* directories made *)
  files : gmap string string;                   (* file system *)
  network : list NetCall                        (* calls sent, oldest first *)
}.

Definition set_Artifacts (v : list artifact.Artifact) (w : World) : World :=
  mkWorld (Brews w) (Dist w) (ctxVersion w) (Prerelease w) v (heap w) (dirs w)
    (files w) (network w).
Definition set_heap (v : gmap loc (list BrewDependency.t)) (w : World) : World :=
  mkWorld (Brews w) (Dist w) (ctxVersion w) (Prerelease w) (Artifacts w) v (dirs w)
    (files w) (network w).
Definition set_dirs (v : list string) (w : World) : World :=
  mkWorld (Brews w) (Dist w) (ctxVersion w) (Prerelease w) (Artifacts w) (heap w) v
    (files w) (network w).
Definition set_files (v : gmap string string) (w : World) : World :=
  mkWorld (Brews w) (Dist w) (ctxVersion w) (Prerelease w) (Artifacts w) (heap w)
    (dirs w) v (network w).
Definition set_network (v : list NetCall) (w : World) : World :=
  mkWorld (Brews w) (Dist w) (ctxVersion w) (Prerelease w) (Artifacts w) (heap w)
    (dirs w) (files w) v.

(** A computation that may fail and may change the world. *)
Definition M (A : Type) : Type := World → result A * World.

Definition ret {A : Type} (a : A) : M A := λ w, (Ok a, w).
Definition fail {A : Type} (e : error) : M A := λ w, (Err e, w).
Definition lift {A : Type} (r : result A) : M A := λ w, (r, w).
Definition get : M World := λ w, (Ok w, w).
Definition modify (f : World → World) : M unit := λ w, (Ok tt, f w).

Definition bind {A B : Type} (c : M A) (k : A → M B) : M B :=
  λ w, match c w with
       | (Ok a, w') => k a w'
       | (Err e, w') => (Err e, w')
       end.

(** [fmt.Errorf(msg + ": %w", err)] around a failing computation. *)
Definition wrapError {A : Type} (msg : string) (c : M A) : M A :=
  λ w, match c w with
       | (Err e, w') => (Err (ErrWrap msg e), w')
       | ok => ok
       end.

#[global] Instance M_ret : MRet M := @ret.
#[global] Instance M_bind : MBind M := λ A B k c, bind c k.

(** ** The pipe *)

Definition brewConfigExtra : string := "BrewConfig".

Definition newline : ascii := "010"%char.
Definition carriageReturn : ascii := "013"%char.

(** Modelled from the spec: [pipe.IsSkip] of [internal/pipe], which
    recognises the skip signal, also when it is wrapped. *)
Fixpoint IsSkip (e : error) : bool :=
  match e with
  | ErrSkip _ => true
  | ErrWrap _ cause => IsSkip cause
  | _ => false
  end.

(** [split]: the lines of the trimmed text, none for an empty text. *)
Definition split (s : string) : list string :=
  let strings := strings.Split (strings.TrimSpace s) newline in
  match strings with
  | [EmptyString] => []
  | _ => strings
  end.

(** The comparator that [lessFnFor list] hands to [sort.Slice], on the two
    elements the indices stand for. *)
Definition lessFnFor (a b : releasePackage) : bool :=
  String.ltb (OS b) (OS a) && String.ltb (Arch b) (Arch a).

(** The comparator of the dependencies: by name, ascending. *)
Definition lessDependency (a b : BrewDependency.t) : bool :=
  String.ltb (BrewDependency.Name a) (BrewDependency.Name b).

(** *** The scanner of the sanitisation pass ([bufio]) *)

(** [bufio.MaxScanTokenSize]: the scanner stops with [ErrTooLong] at a line
    of that many bytes or more. *)
Definition MaxScanTokenSize : N := 65536.

Fixpoint dropCR (data : string) : string :=
  match data with
  | EmptyString => EmptyString
  | String c EmptyString => if Ascii.eqb c carriageReturn then EmptyString else data
  | String c rest => String c (dropCR rest)
  end.

(** The lines [bufio.ScanLines] cuts the input into, before [dropCR]: a
    line ends at a line feed or at the end of the input, and an empty rest
    at the end of the input is no line. *)
Fixpoint rawLines (data : string) : list string :=
  match data with
  | EmptyString => []
  | String c rest =>
      if Ascii.eqb c newline then EmptyString :: rawLines rest
      else match rawLines rest with
           | [] => [String c EmptyString]
           | l :: ls => String c l :: ls
           end
  end.

Definition fits (line : string) : bool :=
  (N.of_nat (String.length line) <? MaxScanTokenSize)%N.

Definition ErrTooLong : error := ErrorString "bufio.Scanner: token too long".

(** The body of the loop, line by line: the line without its trailing
    spaces, then a line feed. *)
Fixpoint writeLines (ls : list string) : string :=
  match ls with
  | [] => EmptyString
  | l :: ls' => strings.TrimRight l " " +:+ String newline (writeLines ls')
  end.

(** The loop of [doBuildFormula] that sanitises the template output and
    gets rid of trailing whitespace. *)
Definition sanitize (content : string) : result string :=
  let raw := rawLines content in
  if forallb fits raw then Ok (writeLines (dropCR <$> raw)) else Err ErrTooLong.

Section Pipe.
Context `{Collaborators}.

(** The [installMap] that [installs] fills by the kind of the artifact when
    the recipe has no install snippet: its keys are the lines. *)
Definition installMap (art : artifact.Artifact) : gmap string bool :=
  match artifact.Type_ art with
  | artifact.UploadableBinary =>
      let name := artifact.Name art in
      let bin := artifact.ExtraOr_string art artifact.ExtraBinary (artifact.Name art) in
      <[ "bin.install " +:+ strconv.Quote name +:+ " => " +:+ strconv.Quote bin := true ]> ∅
  | artifact.UploadableArchive =>
      fold_left (λ m bin, <[ "bin.install " +:+ strconv.Quote bin := true ]> m)
        (artifact.ExtraOr_strings art artifact.ExtraBinaries []) ∅
  | _ => ∅
  end.

(** The install lines guessed from the artifact: the sorted keys of
    [installMap]. *)
Definition guessedInstall (art : artifact.Artifact) : list string :=
  sort.Strings (keys (installMap art)).

(** [installs]: the explicit snippet if there is one, else the guessed
    lines; the extra-install lines come last in both cases. *)
Definition installs (cfg : Homebrew.t) (art : artifact.Artifact)
  : result (list string) :=
  let? extraInstall := tmpl_ApplyWithArtifact art (Homebrew.ExtraInstall cfg) in
  let? install := tmpl_ApplyWithArtifact art (Homebrew.Install cfg) in
  if negb (String.eqb install "")
  then Ok (split install ++ split extraInstall)%list
  else Ok (guessedInstall art ++ split extraInstall)%list.

(** The state of the loop of [dataFor]: the local recipe (its URL
    template is filled in on the way), the data and the counts. *)
Definition loopState : Type := Homebrew.t * templateData * gmap string nat.

(** One turn of the loop of [dataFor]. *)
Definition dataFor_step (cl : client.Client) (st : loopState)
    (art : artifact.Artifact) : result loopState :=
  let '(cfg, result, counts) := st in
  let? sum := Checksum art "sha256" in
  let? cfg :=
    (if String.eqb (Homebrew.URLTemplate cfg) ""
     then let? url := client.ReleaseURLTemplate cl in
          Ok (Homebrew.set_URLTemplate url cfg)
     else Ok cfg) in
  let? url := tmpl_ApplyWithArtifact art (Homebrew.URLTemplate cfg) in
  let? install := installs cfg art in
  let pkg := mkReleasePackage url sum (artifact.Goos art) (artifact.Goarch art)
               (Homebrew.DownloadStrategy cfg) install in
  let key := OS pkg +:+ Arch pkg in
  let counts := <[ key := S (default 0 (counts !! key)) ]> counts in
  let result :=
    if String.eqb (OS pkg) "darwin"
    then set_MacOSPackages (MacOSPackages result ++ [pkg])%list result
    else if String.eqb (OS pkg) "linux"
    then set_LinuxPackages (LinuxPackages result ++ [pkg])%list result
    else result in
  Ok (cfg, result, counts).

Fixpoint dataFor_loop (cl : client.Client) (artifacts : list artifact.Artifact)
    (st : loopState) : result loopState :=
  match artifacts with
  | [] => Ok st
  | art :: rest =>
      let? st' := dataFor_step cl st art in
      dataFor_loop cl rest st'
  end.

(** [dataFor]: the dependencies are sorted in place, through the slice of
    the local recipe; then the artifacts are folded into the data, the counts
    are checked and both package lists are handed to [sort.Slice].  The
    partly filled data that Go returns next to an error is dropped by the
    only caller. *)
Definition dataFor (cfg : Homebrew.t) (cl : client.Client)
    (artifacts : list artifact.Artifact) : M templateData :=
  modify (λ w, set_heap
               (alter (sort.Slice lessDependency) (Homebrew.Dependencies cfg) (heap w)) w);;
  w ← get;
  let result :=
    mkTemplateData
      (formulaNameFor (Homebrew.Name cfg))
      (Homebrew.Description cfg)
      (Homebrew.Homepage cfg)
      (ctxVersion w)
      (Homebrew.License cfg)
      (split (Homebrew.Caveats cfg))
      (default [] (heap w !! Homebrew.Dependencies cfg))
      (Homebrew.Conflicts cfg)
      (Homebrew.Plist cfg)
      (split (Homebrew.Service cfg))
      (split (Homebrew.PostInstall cfg))
      (split (Homebrew.Test cfg))
      (Homebrew.CustomRequire cfg)
      (split (Homebrew.CustomBlock cfg))
      [] [] false in
  lift (
    let? st := dataFor_loop cl artifacts (cfg, result, ∅) in
    let '(_, result, counts) := st in
    if existsb (λ v, 1 <? v)%nat (map_to_list counts).*2
    then Err ErrMultipleArchivesSameOS
    else
      let result :=
        match MacOSPackages result with
        | [p] => if String.eqb (Arch p) "amd64"
                 then set_HasOnlyAmd64MacOsPkg true result else result
        | _ => result
        end in
      let result := set_LinuxPackages (sort.Slice lessFnFor (LinuxPackages result)) result in
      let result := set_MacOSPackages (sort.Slice lessFnFor (MacOSPackages result)) result in
      Ok result).

(** [doBuildFormula]: the structural template, the substitution pass, the
    sanitisation pass. *)
Definition doBuildFormula (data : templateData) : result string :=
  let? out := executeFormulaTemplate data in
  let? content := tmpl_Apply out in
  sanitize content.

Definition buildFormula (brew : Homebrew.t) (cl : client.Client)
    (artifacts : list artifact.Artifact) : M string :=
  data ← dataFor brew cl artifacts;
  lift (doBuildFormula data).

Definition buildFormulaPath (folder filename : string) : string :=
  path_Join [folder; filename].

(** *** Effects on the file system, the registry and the network *)

Definition MkdirAll (dir : string) : M unit :=
  match MkdirAll_error dir with
  | Some e => fail e
  | None => modify (λ w, set_dirs (dirs w ++ [dir])%list w)
  end.

Definition WriteFile (path content : string) : M unit :=
  match WriteFile_error path with
  | Some e => fail e
  | None => modify (λ w, set_files (<[ path := content ]> (files w)) w)
  end.

Definition ReadFile (path : string) : M string :=
  w ← get;
  match files w !! path with
  | Some content => ret content
  | None => fail (ErrorString ("open " +:+ path +:+ ": no such file or directory"))
  end.

(** [ctx.Artifacts.Add] *)
Definition Artifacts_Add (a : artifact.Artifact) : M unit :=
  modify (λ w, set_Artifacts (Artifacts w ++ [a])%list w).

(** A call of [cl.CreateFile]: the call goes out, then its outcome comes
    back. *)
Definition call_CreateFile (cl : client.Client) (author : CommitAuthor.t)
    (repo : client.Repo) (content path message : string) : M unit :=
  modify (λ w, set_network
            (network w ++ [CreateFileCall author repo content path message])%list w);;
  lift (client.CreateFile cl author repo content path message).

Definition call_OpenPullRequest
    (open : client.Repo → client.Repo → string → bool → result unit)
    (base head : client.Repo) (title : string) (draft : bool) : M unit :=
  modify (λ w, set_network
            (network w ++ [OpenPullRequestCall base head title draft])%list w);;
  lift (open base head title draft).

(** The filters of [doRun]. *)
Definition filtersFor (brew : Homebrew.t) : list artifact.Filter :=
  let filters := [
    artifact.Or [artifact.ByGoos "darwin"; artifact.ByGoos "linux"];
    artifact.Or [
      artifact.And [artifact.ByGoarch "amd64"; artifact.ByGoamd64 (Homebrew.Goamd64 brew)];
      artifact.ByGoarch "arm64";
      artifact.ByGoarch "all";
      artifact.And [artifact.ByGoarch "arm"; artifact.ByGoarm (Homebrew.Goarm brew)]
    ];
    artifact.Or [
      artifact.And [artifact.ByFormats ["zip"; "tar.gz"];
                    artifact.ByType artifact.UploadableArchive];
      artifact.ByType artifact.UploadableBinary
    ];
    artifact.OnlyReplacingUnibins
  ] in
  if (0 <? length (Homebrew.IDs brew))%nat
  then (filters ++ [artifact.ByIDs (Homebrew.IDs brew)])%list
  else filters.

(** [doRun] gets the recipe by value: the assignments to [brew.Name],
    [brew.Repository] and [brew.SkipUpload] change its own copy. *)
Definition doRun (brew : Homebrew.t) (cl : client.Client) : M unit :=
  if String.eqb (RepoRef.Name (Homebrew.Repository brew)) ""
  then fail (ErrSkip "brew.repository.name is not set")
  else
    w ← get;
    let archives := List.filter (artifact.And (filtersFor brew)) (Artifacts w) in
    if (length archives =? 0)%nat
    then fail (ErrNoArchivesFound (Homebrew.Goarm brew) (Homebrew.Goamd64 brew)
                 (Homebrew.IDs brew))
    else
      name ← lift (tmpl_Apply (Homebrew.Name brew));
      let brew := Homebrew.set_Name name brew in
      ref ← lift (TemplateRef tmpl_Apply (Homebrew.Repository brew));
      let brew := Homebrew.set_Repository ref brew in
      skipUpload ← lift (tmpl_Apply (Homebrew.SkipUpload brew));
      let brew := Homebrew.set_SkipUpload skipUpload brew in
      content ← buildFormula brew cl archives;
      let filename := Homebrew.Name brew +:+ ".rb" in
      let path := filepath_Join [Dist w; "homebrew"; Homebrew.Folder brew; filename] in
      MkdirAll (filepath_Dir path);;
      wrapError "failed to write brew formula" (WriteFile path content);;
      Artifacts_Add (artifact.mk filename path "" "" "" "" artifact.BrewTap
                       {[ brewConfigExtra := artifact.XHomebrew brew ]});;
      ret tt.

(** [for _, brew := range ctx.Config.Brews]: every recipe is copied out of
    the configuration before [doRun] gets it. *)
Fixpoint runAll_loop (brews : list Homebrew.t) (cl : client.Client) : M unit :=
  match brews with
  | [] => ret tt
  | brew :: rest => doRun brew cl;; runAll_loop rest cl
  end.

Definition runAll (cl : client.Client) : M unit :=
  w ← get;
  runAll_loop (Brews w) cl.

(** [doPublish]: the recipe is read back from the formula artifact; the
    two skip tests come first, the network last. *)
Definition doPublish (formula : artifact.Artifact) (cl : client.Client) : M unit :=
  brew ← lift (artifact.Extra_Homebrew formula brewConfigExtra);
  if String.eqb (strings.TrimSpace (Homebrew.SkipUpload brew)) "true"
  then fail (ErrSkip "brew.skip_upload is set")
  else
    w ← get;
    if String.eqb (strings.TrimSpace (Homebrew.SkipUpload brew)) "auto"
       && negb (String.eqb (Prerelease w) "")
    then fail (ErrSkip "prerelease detected with 'auto' upload, skipping homebrew publish")
    else
      let repo := RepoFromRef (Homebrew.Repository brew) in
      let gpath := buildFormulaPath (Homebrew.Folder brew) (artifact.Name formula) in
      msg ← lift (tmpl_Apply (Homebrew.CommitMessageTemplate brew));
      author ← lift (commitauthor_Get (Homebrew.CommitAuthor brew));
      content ← ReadFile (artifact.Path formula);
      if negb (String.eqb (GitRepoRef.URL (RepoRef.Git (Homebrew.Repository brew))) "")
      then call_CreateFile (NewGitUploadClient (client.Branch repo))
             author repo content gpath msg
      else
        cl ← lift (NewIfToken cl (RepoRef.Token (Homebrew.Repository brew)));
        if negb (PullRequest.Enabled (RepoRef.PullRequest (Homebrew.Repository brew)))
        then call_CreateFile cl author repo content gpath msg
        else
          match client.PullRequestOpener cl with
          | None => fail (ErrorString "client does not support pull requests")
          | Some open =>
              call_CreateFile cl author repo content gpath msg;;
              let pr := RepoRef.PullRequest (Homebrew.Repository brew) in
              call_OpenPullRequest open
                (client.mkRepo
                   (PullRequestBase.Owner (PullRequest.Base pr))
                   (PullRequestBase.Name (PullRequest.Base pr))
                   (PullRequestBase.Branch (PullRequest.Base pr)))
                repo msg (PullRequest.Draft pr)
          end.

End Pipe.

(** ** The rules as the specification words them *)

(** The name-mangling rule, one character at a time: hyphens and underscores
    become spaces, periods are deleted, the at sign becomes the literal AT,
    the result is title-cased, then all spaces are removed. *)
Module NameMangling.

Fixpoint rewrite (f : ascii → string) (s : string) : string :=
  match s with
  | EmptyString => EmptyString
  | String c s' => f c +:+ rewrite f s'
  end.

Definition becomes (c : ascii) (to : string) : ascii → string :=
  λ d, if Ascii.eqb d c then to else String d EmptyString.

Definition hyphensToSpaces : string → string := rewrite (becomes "-" " ").
Definition underscoresToSpaces : string → string := rewrite (becomes "_" " ").
Definition deletePeriods : string → string := rewrite (becomes "." "").
Definition atToAT : string → string := rewrite (becomes "@" "AT").
Definition removeSpaces : string → string := rewrite (becomes " " "").

Definition beforeTitleCasing (name : string) : string :=
  atToAT (deletePeriods (underscoresToSpaces (hyphensToSpaces name))).

Definition mangle (name : string) : string :=
  removeSpaces (strings.Title (beforeTitleCasing name)).

End NameMangling.

(** ** Vocabulary of the properties *)

Fixpoint lastByte (s : string) : option ascii :=
  match s with
  | EmptyString => None
  | String c EmptyString => Some c
  | String _ s' => lastByte s'
  end.

Fixpoint hasByte (c : ascii) (s : string) : bool :=
  match s with
  | EmptyString => false
  | String d s' => Ascii.eqb d c || hasByte c s'
  end.



(** The key under which [dataFor] counts an artifact. *)
Definition platformKey (a : artifact.Artifact) : string :=
  artifact.Goos a +:+ artifact.Goarch a.

Definition occurrences (k : string) (arts : list artifact.Artifact) : nat :=
  length (filter (λ a, platformKey a = k) arts).

(** Two artifacts at different places of the list share their OS and their
    architecture. *)
Definition ambiguous (arts : list artifact.Artifact) : Prop :=
  ∃ i j a b, i ≠ j ∧ arts !! i = Some a ∧ arts !! j = Some b
             ∧ artifact.Goos a = artifact.Goos b
             ∧ artifact.Goarch a = artifact.Goarch b.


(** The artifacts [doRun] selects for a recipe. *)
Definition archivesOf (brew : Homebrew.t) (w : World) : list artifact.Artifact :=
  List.filter (artifact.And (filtersFor brew)) (Artifacts w).

(** The architectures of the artifacts for one OS, in the order of the
    list. *)
Definition archsFor (goos : string) (arts : list artifact.Artifact) : list string :=
  artifact.Goarch <$> List.filter (artifact.ByGoos goos) arts.

(** The world after [dataFor] has sorted the dependencies of the recipe. *)
Definition sortedHeap (cfg : Homebrew.t) (w : World) : World :=
  set_heap (alter (sort.Slice lessDependency) (Homebrew.Dependencies cfg) (heap w)) w.

(** The templated fields of the recipe resolve. *)
Definition resolves `{Collaborators} (brew : Homebrew.t) (resolved : Homebrew.t) : Prop :=
  ∃ name ref skipUpload,
    tmpl_Apply (Homebrew.Name brew) = Ok name
    ∧ TemplateRef tmpl_Apply (Homebrew.Repository brew) = Ok ref
    ∧ tmpl_Apply (Homebrew.SkipUpload brew) = Ok skipUpload
    ∧ resolved = Homebrew.set_SkipUpload skipUpload
                   (Homebrew.set_Repository ref (Homebrew.set_Name name brew)).

(** The backing arrays hold the same elements, possibly in another order. *)
Definition reordered (h h' : gmap loc (list BrewDependency.t)) : Prop :=
  ∀ l, option_Forall2 Permutation (h !! l) (h' !! l).

(** What a run leaves of the configuration: the recipes as they are stored,
    and the elements of their dependencies. *)
Definition keepsConfig (w w' : World) : Prop :=
  Brews w' = Brews w ∧ reordered (heap w) (heap w').

Definition preservesConfig {A : Type} (c : M A) : Prop :=
  ∀ w, keepsConfig w (c w).2.

(** The dependencies of a recipe, as the configuration holds them. *)
Definition storedDependencies (w : World) (brew : Homebrew.t)
  : list BrewDependency.t :=
  default [] (heap w !! Homebrew.Dependencies brew).

(** ** A concrete run, for evaluating the pipe on examples *)

Module demo.

Definition joinPath (parts : list string) : string :=
  String.concat "/" (List.filter (λ p, negb (String.eqb p "")) parts).

(** A hosting client that accepts every call; [pr] says whether it can
    open pull requests. *)
Definition hosting (pr : bool) : client.Client :=
  client.mkClient
    (Ok "https://example.com/{{ .Tag }}/{{ .ArtifactName }}")
    (λ _ _ _ _ _, Ok tt)
    (if pr then Some (λ _ _ _ _, Ok tt) else None).

(** Placeholders are left as they are; an artifact without a path cannot be
    read, so its checksum fails. *)
#[export] Instance collaborators : Collaborators := {|
  tmpl_Apply := λ s, Ok s;
  tmpl_ApplyWithArtifact := λ _ s, Ok s;
  Checksum := λ a _,
    if String.eqb (artifact.Path a) ""
    then Err (ErrorString "open : no such file or directory")
    else Ok ("sha256 of " +:+ artifact.Path a);
  executeFormulaTemplate := λ d, Ok ("class " +:+ Name d +:+ " < Formula");
  TemplateRef := λ _ ref, Ok ref;
  RepoFromRef := λ ref, client.mkRepo (RepoRef.Owner ref) (RepoRef.Name ref) (RepoRef.Branch ref);
  commitauthor_Get := λ a, Ok a;
  NewIfToken := λ cl _, Ok cl;
  NewGitUploadClient := λ _, hosting false;
  filepath_Join := joinPath;
  filepath_Dir := λ p, p +:+ "/..";
  path_Join := joinPath;
  MkdirAll_error := λ _, None;
  WriteFile_error := λ _, None
|}.

Definition repo (name gitURL : string) (pr : bool) : RepoRef.t :=
  RepoRef.mk "owner" name "" "main" (GitRepoRef.mk gitURL "" "")
    (PullRequest.mk pr (PullRequestBase.mk "" "" "") false).

Definition brewIn (r : RepoRef.t) (skipUpload : string) (deps : loc) : Homebrew.t :=
  Homebrew.mk "foo-bar" r (CommitAuthor.mk "bot" "bot@example.com")
    "update" "Formula" "" "" "" "" deps "" [] "desc" "https://example.com" "MIT"
    skipUpload "" "" "" "" [] "6" "v1" "" "".

Definition brew (repoName skipUpload : string) (deps : loc) : Homebrew.t :=
  brewIn (repo repoName "" false) skipUpload deps.

Definition binary (name path goos goarch : string) : artifact.Artifact :=
  artifact.mk name path goos goarch "" "v1" artifact.UploadableBinary ∅.

Definition world (brews : list Homebrew.t) (arts : list artifact.Artifact)
    (h : gmap loc (list BrewDependency.t)) : World :=
  mkWorld brews "dist" "1.0.0" "" arts h [] ∅ [].

(** The formula artifact of a recipe, and a world in which its file is on
    disk. *)
Definition formula (b : Homebrew.t) : artifact.Artifact :=
  artifact.mk "foo-bar.rb" "dist/homebrew/Formula/foo-bar.rb" "" "" "" ""
    artifact.BrewTap {[ brewConfigExtra := artifact.XHomebrew b ]}.

Definition rendered (b : Homebrew.t) (prerelease : string) : World :=
  mkWorld [b] "dist" "1.0.0" prerelease [formula b] ∅ ["dist/homebrew/Formula/.."]
    {[ "dist/homebrew/Formula/foo-bar.rb" := "class FooBar < Formula" ]} [].

Definition darwin (arch : string) : artifact.Artifact :=
  binary ("foo_darwin_" +:+ arch) ("dist/foo_darwin_" +:+ arch) "darwin" arch.

(** The architectures of the macOS packages that [dataFor] assembles from
    the artifacts, in the order of the list. *)
Definition macOSArchs (arts : list artifact.Artifact) : result (list string) :=
  let? data := (dataFor (brew "tap" "" 0) (hosting false) arts (world [] arts ∅)).1 in
  Ok (Arch <$> MacOSPackages data).

End demo.

(** ** The rest of the pipe: defaults and the publication of all formulas *)

#[global] Instance CommitAuthor_eq_dec : EqDecision CommitAuthor.t.
Proof. solve_decision. Defined.
#[global] Instance GitRepoRef_eq_dec : EqDecision GitRepoRef.t.
Proof. solve_decision. Defined.
#[global] Instance PullRequestBase_eq_dec : EqDecision PullRequestBase.t.
Proof. solve_decision. Defined.
#[global] Instance PullRequest_eq_dec : EqDecision PullRequest.t.
Proof. solve_decision. Defined.
#[global] Instance RepoRef_eq_dec : EqDecision RepoRef.t.
Proof. solve_decision. Defined.

(** [config.RepoRef{}], the zero value. *)
Definition zeroRepoRef : RepoRef.t :=
  RepoRef.mk "" "" "" "" (GitRepoRef.mk "" "" "")
    (PullRequest.mk false (PullRequestBase.mk "" "" "") false).

(** Modelled from the spec: [config.Homebrew] also has the deprecated field
    [Tap], which only [Default] reads.  A recipe as [Default] finds it in
    the configuration is the recipe together with its tap. *)
Record declaredRecipe := mkDeclared {
  recipe : Homebrew.t;
  Tap : RepoRef.t
}.

Definition set_CommitAuthor (v : CommitAuthor.t) (b : Homebrew.t) : Homebrew.t :=
  Homebrew.mk (Homebrew.Name b) (Homebrew.Repository b) v
    (Homebrew.CommitMessageTemplate b) (Homebrew.Folder b) (Homebrew.Caveats b)
    (Homebrew.Install b) (Homebrew.ExtraInstall b) (Homebrew.PostInstall b)
    (Homebrew.Dependencies b) (Homebrew.Test b) (Homebrew.Conflicts b)
    (Homebrew.Description b) (Homebrew.Homepage b) (Homebrew.License b)
    (Homebrew.SkipUpload b) (Homebrew.DownloadStrategy b) (Homebrew.URLTemplate b)
    (Homebrew.CustomRequire b) (Homebrew.CustomBlock b) (Homebrew.IDs b)
    (Homebrew.Goarm b) (Homebrew.Goamd64 b) (Homebrew.Service b) (Homebrew.Plist b).

Definition set_CommitMessageTemplate (v : string) (b : Homebrew.t) : Homebrew.t :=
  Homebrew.mk (Homebrew.Name b) (Homebrew.Repository b) (Homebrew.CommitAuthor b)
    v (Homebrew.Folder b) (Homebrew.Caveats b)
    (Homebrew.Install b) (Homebrew.ExtraInstall b) (Homebrew.PostInstall b)
    (Homebrew.Dependencies b) (Homebrew.Test b) (Homebrew.Conflicts b)
    (Homebrew.Description b) (Homebrew.Homepage b) (Homebrew.License b)
    (Homebrew.SkipUpload b) (Homebrew.DownloadStrategy b) (Homebrew.URLTemplate b)
    (Homebrew.CustomRequire b) (Homebrew.CustomBlock b) (Homebrew.IDs b)
    (Homebrew.Goarm b) (Homebrew.Goamd64 b) (Homebrew.Service b) (Homebrew.Plist b).

Definition set_Goarm (v : string) (b : Homebrew.t) : Homebrew.t :=
  Homebrew.mk (Homebrew.Name b) (Homebrew.Repository b) (Homebrew.CommitAuthor b)
    (Homebrew.CommitMessageTemplate b) (Homebrew.Folder b) (Homebrew.Caveats b)
    (Homebrew.Install b) (Homebrew.ExtraInstall b) (Homebrew.PostInstall b)
    (Homebrew.Dependencies b) (Homebrew.Test b) (Homebrew.Conflicts b)
    (Homebrew.Description b) (Homebrew.Homepage b) (Homebrew.License b)
    (Homebrew.SkipUpload b) (Homebrew.DownloadStrategy b) (Homebrew.URLTemplate b)
    (Homebrew.CustomRequire b) (Homebrew.CustomBlock b) (Homebrew.IDs b)
    v (Homebrew.Goamd64 b) (Homebrew.Service b) (Homebrew.Plist b).

Definition set_Goamd64 (v : string) (b : Homebrew.t) : Homebrew.t :=
  Homebrew.mk (Homebrew.Name b) (Homebrew.Repository b) (Homebrew.CommitAuthor b)
    (Homebrew.CommitMessageTemplate b) (Homebrew.Folder b) (Homebrew.Caveats b)
    (Homebrew.Install b) (Homebrew.ExtraInstall b) (Homebrew.PostInstall b)
    (Homebrew.Dependencies b) (Homebrew.Test b) (Homebrew.Conflicts b)
    (Homebrew.Description b) (Homebrew.Homepage b) (Homebrew.License b)
    (Homebrew.SkipUpload b) (Homebrew.DownloadStrategy b) (Homebrew.URLTemplate b)
    (Homebrew.CustomRequire b) (Homebrew.CustomBlock b) (Homebrew.IDs b)
    (Homebrew.Goarm b) v (Homebrew.Service b) (Homebrew.Plist b).

Definition defaultCommitMessage : string :=
  "Brew formula update for {{ .ProjectName }} version {{ .Tag }}".

Section Defaults.
(** [commitauthor.Default] and [ctx.Config.ProjectName]. *)
Variable commitauthor_Default : CommitAuthor.t → CommitAuthor.t.
Variable ProjectName : string.

(** The body of the loop of [Pipe.Default] on one recipe: the recipe with
    its defaults, and the deprecation notices it gives rise to. *)
Definition Default_recipe (d : declaredRecipe) : declaredRecipe * list string :=
  let brew := recipe d in
  let brew := set_CommitAuthor (commitauthor_Default (Homebrew.CommitAuthor brew)) brew in
  let brew :=
    if String.eqb (Homebrew.CommitMessageTemplate brew) ""
    then set_CommitMessageTemplate defaultCommitMessage brew else brew in
  let brew :=
    if String.eqb (Homebrew.Name brew) "" then Homebrew.set_Name ProjectName brew
    else brew in
  let brew :=
    if String.eqb (Homebrew.Goarm brew) "" then set_Goarm "6" brew else brew in
  let brew :=
    if String.eqb (Homebrew.Goamd64 brew) "" then set_Goamd64 "v1" brew else brew in
  let plist :=
    if negb (String.eqb (Homebrew.Plist brew) "") then ["brews.plist"] else [] in
  if bool_decide (Tap d ≠ zeroRepoRef)
  then (mkDeclared (Homebrew.set_Repository (Tap d) brew) (Tap d),
        (plist ++ ["brews.tap"])%list)
  else (mkDeclared brew (Tap d), plist).

(** [Pipe.Default]: every recipe of the configuration in turn; it never
    fails.  The result is the new configuration and the notices, in order. *)
Definition Default (brews : list declaredRecipe) : list declaredRecipe * list string :=
  (fst ∘ Default_recipe <$> brews, mjoin (snd ∘ Default_recipe <$> brews)).

End Defaults.

Section PublishAll.
Context `{Collaborators}.
(** [pipe.SkipMemento]: the skips remembered so far, how one more is
    remembered, and what [Evaluate] reports in the end. *)
Context {SkipMemento : Type}.
Variable Remember : SkipMemento → error → SkipMemento.
Variable Evaluate : SkipMemento → result unit.

(** The loop of [publishAll]: a skip is remembered and the loop goes on;
    any other error ends it. *)
Fixpoint publishAll_loop (formulas : list artifact.Artifact) (cl : client.Client)
    (skips : SkipMemento) : M unit :=
  match formulas with
  | [] => lift (Evaluate skips)
  | formula :: rest =>
      λ w, match doPublish formula cl w with
           | (Err err, w') =>
               if IsSkip err
               then publishAll_loop rest cl (Remember skips err) w'
               else (Err err, w')
           | (Ok _, w') => publishAll_loop rest cl skips w'
           end
  end.

Definition publishAll (empty : SkipMemento) (cl : client.Client) : M unit :=
  w ← get;
  publishAll_loop (List.filter (artifact.ByType artifact.BrewTap) (Artifacts w)) cl empty.

End PublishAll.

(** ** More vocabulary *)


(** By name, ascending. *)
Definition byName (a b : BrewDependency.t) : Prop :=
  String.le (BrewDependency.Name a) (BrewDependency.Name b).

(** A computation keeps a relation between the world before and after. *)
Definition keeps {A : Type} (R : relation World) (c : M A) : Prop :=
  ∀ w, R w (c w).2.

(** The run phase: the artifacts that were registered stay as they are,
    what is appended are formulas, and nothing is sent. *)
Definition appendsFormulas (w w' : World) : Prop :=
  (∃ formulas,
     Artifacts w' = (Artifacts w ++ formulas)%list
     ∧ Forall (λ a, artifact.Type_ a = artifact.BrewTap) formulas)
  ∧ network w' = network w.

(** The publish phase: the configuration, the registry and the file system
    stay as they are, and calls are only added. *)
Definition publishes (w w' : World) : Prop :=
  Brews w' = Brews w ∧ heap w' = heap w ∧ Artifacts w' = Artifacts w
  ∧ dirs w' = dirs w ∧ files w' = files w
  ∧ network w `prefix_of` network w'.

Definition isCreateFile (c : NetCall) : bool :=
  match c with
  | CreateFileCall _ _ _ _ _ => true
  | OpenPullRequestCall _ _ _ _ => false
  end.

(** The template of the download URL: the one of the recipe, or else the one
    of the host. *)
Definition effectiveURLTemplate (cfg : Homebrew.t) (cl : client.Client)
    (t : string) : Prop :=
  (Homebrew.URLTemplate cfg ≠ "" ∧ t = Homebrew.URLTemplate cfg)
  ∨ (Homebrew.URLTemplate cfg = "" ∧ client.ReleaseURLTemplate cl = Ok t).

(** The package is the one of the artifact: its checksum, its platform, its
    install lines, the download strategy of the recipe, and the download URL
    that the template gives for the artifact. *)
Definition packageOf `{Collaborators} (cfg : Homebrew.t) (cl : client.Client)
    (art : artifact.Artifact) (pkg : releasePackage) : Prop :=
  Checksum art "sha256" = Ok (SHA256 pkg)
  ∧ OS pkg = artifact.Goos art
  ∧ Arch pkg = artifact.Goarch art
  ∧ installs cfg art = Ok (Install pkg)
  ∧ DownloadStrategy pkg = Homebrew.DownloadStrategy cfg
  ∧ ∃ t, effectiveURLTemplate cfg cl t
         ∧ tmpl_ApplyWithArtifact art t = Ok (DownloadURL pkg).

(** The local recipe of the loop of [dataFor] differs from the recipe in its
    URL template at most, which is then the one of the host. *)
Definition tracks (cl : client.Client) (cfg cfg' : Homebrew.t) : Prop :=
  Homebrew.Install cfg' = Homebrew.Install cfg
  ∧ Homebrew.ExtraInstall cfg' = Homebrew.ExtraInstall cfg
  ∧ Homebrew.DownloadStrategy cfg' = Homebrew.DownloadStrategy cfg
  ∧ (Homebrew.URLTemplate cfg' = Homebrew.URLTemplate cfg
     ∨ (Homebrew.URLTemplate cfg = ""
        ∧ client.ReleaseURLTemplate cl = Ok (Homebrew.URLTemplate cfg'))).

(** The artifacts for one OS, in the order of the list. *)
Definition artifactsFor (goos : string) (arts : list artifact.Artifact)
  : list artifact.Artifact :=
  List.filter (artifact.ByGoos goos) arts.

(** ** More concrete inputs *)

Module sample.

Definition linux (arch : string) : artifact.Artifact :=
  demo.binary ("foo_linux_" +:+ arch) ("dist/foo_linux_" +:+ arch) "linux" arch.

Definition recipe : Homebrew.t := demo.brew "tap" "" 0.

(** A release for macOS on AMD64 only, and one for three platforms. *)
Definition single : list artifact.Artifact := [demo.darwin "amd64"].
Definition three : list artifact.Artifact :=
  [linux "amd64"; demo.darwin "arm64"; linux "arm64"].

(** Two recipes, the first without a repository name. *)
Definition unnamedFirst : list Homebrew.t := [demo.brew "" "" 0; demo.brew "tap" "" 1].

Definition assembled (arts : list artifact.Artifact) : result templateData * World :=
  dataFor (H := demo.collaborators) recipe (demo.hosting false) arts
    (demo.world [recipe] arts ∅).

End sample.

(** The install line of one bundled binary. *)
Definition installLine (bin : string) : string :=
  "bin.install " +:+ strconv.Quote bin.

Module sample2.

Definition archive : artifact.Artifact :=
  artifact.mk "foo.tar.gz" "dist/foo.tar.gz" "linux" "amd64" "" "v1"
    artifact.UploadableArchive
    {[ artifact.ExtraBinaries := artifact.XStrings ["foo"; "bar"; "foo"] ]}.

(** A host that has no URL template to offer. *)
Definition noTemplate : client.Client :=
  client.mkClient (Err (ErrorString "not implemented")) (λ _ _ _ _ _, Ok tt) None.

Definition withURL : Homebrew.t :=
  Homebrew.set_URLTemplate "https://example.com/{{ .ArtifactName }}" sample.recipe.

End sample2.



Module sample3.

(** A memento that keeps the errors it is given and reports the first. *)
Definition Remember (skips : list error) (e : error) : list error := (skips ++ [e])%list.
Definition Evaluate (skips : list error) : result unit :=
  match skips with
  | [] => Ok tt
  | e :: _ => Err e
  end.

Definition skipping : Homebrew.t := demo.brew "tap" "true" 0.

(** Two formulas: the first is to be skipped, the second to be committed. *)
Definition formulas : list artifact.Artifact :=
  [demo.formula skipping; demo.formula sample.recipe].

Definition declared : declaredRecipe :=
  mkDeclared (demo.brewIn zeroRepoRef "" 0) (demo.repo "tap" "" false).

End sample3.


(** A text that [sanitize] has nothing to do on: it is empty or ends at
    the end of a line, and none of its lines ends in a space or in a
    carriage return. *)
Definition terminated (content : string) : Prop :=
  content = "" ∨ lastByte content = Some newline.

Definition cleanLine (line : string) : Prop :=
  lastByte line ≠ Some " "%char ∧ lastByte line ≠ Some carriageReturn.

(** Evaluation of the setters and fields of a recipe. *)
Ltac Default_fields :=
  cbv [set_CommitAuthor set_CommitMessageTemplate set_Goarm
         set_Goamd64 Homebrew.set_Name Homebrew.set_Repository recipe Tap
         Homebrew.Name Homebrew.Repository Homebrew.CommitAuthor
         Homebrew.CommitMessageTemplate Homebrew.Folder Homebrew.Caveats Homebrew.Install
         Homebrew.ExtraInstall Homebrew.PostInstall Homebrew.Dependencies Homebrew.Test
         Homebrew.Conflicts Homebrew.Description Homebrew.Homepage Homebrew.License
         Homebrew.SkipUpload Homebrew.DownloadStrategy Homebrew.URLTemplate
         Homebrew.CustomRequire Homebrew.CustomBlock Homebrew.IDs Homebrew.Goarm
         Homebrew.Goamd64 Homebrew.Service Homebrew.Plist String.eqb
         defaultCommitMessage].

(** * Properties *)

(** ** Name mangling *)

Lemma prefix_empty (s : string) : String.prefix "" s = true.
Proof. by destruct s. Qed.

(** Replacing a one-character pattern rewrites every character on its own. *)
Lemma ReplaceAll_char (s : string) (c : ascii) (new : string) :
  strings.ReplaceAll s (String c "") new
  = NameMangling.rewrite (NameMangling.becomes c new) s.
Proof.
  unfold strings.ReplaceAll, NameMangling.becomes.
  induction s as [|a s IH]; [done|].
  cbn [strings.replace_from NameMangling.rewrite String.prefix String.length].
  rewrite prefix_empty.
  destruct (ascii_dec c a) as [->|Hne].
  - rewrite Ascii.eqb_refl. cbn. by rewrite IH.
  - destruct (Ascii.eqb_spec a c) as [->|_]; [done|]. cbn. by rewrite IH.
Qed.

(** C5: [formulaNameFor] applies, in this order, hyphens to spaces,
    underscores to spaces, deletion of periods, the at sign to the literal
    AT, title-casing, then removal of all spaces.  In particular foo-bar
    becomes FooBar, and in foo_bar@v6.0.0-rc the at sign is AT and the
    periods are gone before the title-casing. *)
Theorem formulaNameFor_mangles :
  (∀ name, formulaNameFor name = NameMangling.mangle name)
  ∧ formulaNameFor "foo-bar" = "FooBar"
  ∧ NameMangling.beforeTitleCasing "foo_bar@v6.0.0-rc" = "foo barATv600 rc"
  ∧ formulaNameFor "foo_bar@v6.0.0-rc" = "FooBarATv600Rc".
Proof.
  split; [|by repeat split].
  intros name. unfold formulaNameFor, NameMangling.mangle.
  unfold NameMangling.beforeTitleCasing, NameMangling.removeSpaces.
  unfold NameMangling.atToAT, NameMangling.deletePeriods.
  unfold NameMangling.underscoresToSpaces, NameMangling.hyphensToSpaces.
  cbv zeta. by rewrite !ReplaceAll_char.
Qed.

(** ** The sanitisation pass *)

Lemma append_nil_l (s : string) : "" +:+ s = s.
Proof. done. Qed.

Lemma append_cons (c : ascii) (s t : string) : String c s +:+ t = String c (s +:+ t).
Proof. done. Qed.

Section Sanitize.

Lemma TrimRight_cons (c : ascii) (s cutset : string) :
  strings.TrimRight (String c s) cutset
  = match strings.TrimRight s cutset with
    | EmptyString =>
        if strings.inCutset c cutset then EmptyString else String c EmptyString
    | String a t => String c (String a t)
    end.
Proof. done. Qed.

Lemma inCutset_space (c : ascii) : strings.inCutset c " " = Ascii.eqb c " ".
Proof. cbn. by rewrite orb_false_r. Qed.


(** What is left does not end in a space. *)
Lemma lastByte_TrimRight (s : string) : lastByte (strings.TrimRight s " ") ≠ Some " "%char.
Proof.
  induction s as [|c s IH]; [done|].
  rewrite TrimRight_cons. destruct (strings.TrimRight s " ") as [|a t] eqn:E.
  - rewrite inCutset_space. destruct (Ascii.eqb_spec c " ") as [->|Hc]; [done|].
    cbn. congruence.
  - exact IH.
Qed.

Lemma TrimRight_fixed (t : string) : lastByte t ≠ Some " "%char → strings.TrimRight t " " = t.
Proof.
  induction t as [|c t IH]; [done|]. intros Hlast.
  rewrite TrimRight_cons. destruct t as [|d t'].
  - cbn. rewrite orb_false_r. destruct (Ascii.eqb_spec c " ") as [->|_]; [|done].
    by destruct Hlast.
  - rewrite IH; [done|]. exact Hlast.
Qed.


Lemma dropCR_fixed (t : string) : lastByte t ≠ Some carriageReturn → dropCR t = t.
Proof.
  induction t as [|c t IH]; [done|]. intros Hlast. destruct t as [|d t'].
  - cbn. destruct (Ascii.eqb_spec c carriageReturn) as [->|_]; [|done].
    by destruct Hlast.
  - change (dropCR (String c (String d t'))) with (String c (dropCR (String d t'))).
    rewrite IH; [done|]. exact Hlast.
Qed.

Lemma length_TrimRight (s cutset : string) :
  (String.length (strings.TrimRight s cutset) ≤ String.length s)%nat.
Proof.
  induction s as [|c s IH]; [done|].
  rewrite TrimRight_cons. destruct (strings.TrimRight s cutset).
  - destruct (strings.inCutset c cutset); cbn; lia.
  - cbn in *. lia.
Qed.



Lemma hasByte_TrimRight (c : ascii) (s cutset : string) :
  hasByte c s = false → hasByte c (strings.TrimRight s cutset) = false.
Proof.
  induction s as [|d s IH]; [done|]. cbn [hasByte].
  intros [Hd Hs]%orb_false_elim. rewrite TrimRight_cons.
  specialize (IH Hs). destruct (strings.TrimRight s cutset).
  - destruct (strings.inCutset d cutset); cbn; [done|]. by rewrite Hd.
  - cbn [hasByte] in *. by rewrite Hd, IH.
Qed.

Lemma hasByte_dropCR (c : ascii) (s : string) :
  hasByte c s = false → hasByte c (dropCR s) = false.
Proof.
  induction s as [|d s IH]; [done|]. cbn [hasByte].
  intros [Hd Hs]%orb_false_elim. destruct s as [|e s'].
  - cbn. destruct (Ascii.eqb d carriageReturn); cbn; [done|]. by rewrite Hd.
  - change (dropCR (String d (String e s'))) with (String d (dropCR (String e s'))).
    cbn [hasByte]. by rewrite Hd, IH.
Qed.


Lemma rawLines_cons (c : ascii) (rest : string) :
  rawLines (String c rest)
  = if Ascii.eqb c newline then EmptyString :: rawLines rest
    else match rawLines rest with
         | [] => [String c EmptyString]
         | l :: ls => String c l :: ls
         end.
Proof. done. Qed.


(** No line holds a line feed. *)
Lemma rawLines_no_newline (data l : string) :
  l ∈ rawLines data → hasByte newline l = false.
Proof.
  revert l. induction data as [|d data IH]; intros l; [by intros ?%elem_of_nil|].
  rewrite rawLines_cons. destruct (Ascii.eqb d newline) eqn:Hd.
  - intros [->|Hl]%elem_of_cons; [done|]. by apply IH.
  - destruct (rawLines data) as [|l0 ls].
    + intros ->%list_elem_of_singleton. cbn. by rewrite Hd.
    + intros [->|Hl]%elem_of_cons.
      * cbn [hasByte]. rewrite Hd. apply IH. by left.
      * apply IH. by right.
Qed.

Lemma rawLines_line (t rest : string) :
  hasByte newline t = false →
  rawLines (t +:+ String newline rest) = t :: rawLines rest.
Proof.
  induction t as [|c t IH].
  - intros _. rewrite append_nil_l, rawLines_cons. by rewrite Ascii.eqb_refl.
  - cbn [hasByte]. intros [Hc Ht]%orb_false_elim.
    rewrite append_cons, rawLines_cons, Hc. by rewrite (IH Ht).
Qed.

Lemma rawLines_writeLines (ts : list string) :
  (∀ t, t ∈ ts → hasByte newline t = false) →
  rawLines (writeLines ts) = (λ t, strings.TrimRight t " ") <$> ts.
Proof.
  induction ts as [|t ts IH]; [done|]. intros Hts. cbn [writeLines fmap list_fmap].
  rewrite rawLines_line.
  - f_equal. apply IH. intros t' Ht'. apply Hts. by right.
  - apply hasByte_TrimRight, Hts. by left.
Qed.



Lemma dropCR_fixed_all (ts : list string) :
  (∀ t, t ∈ ts → lastByte t ≠ Some carriageReturn) → dropCR <$> ts = ts.
Proof.
  induction ts as [|t ts IH]; [done|]. intros Hts. cbn [fmap list_fmap]. f_equal.
  - apply dropCR_fixed, Hts. by left.
  - apply IH. intros t' Ht'. apply Hts. by right.
Qed.

(** The lines of the output are the kept parts of the lines of the input. *)
Lemma rawLines_sanitize (content out : string) :
  sanitize content = Ok out →
  forallb fits (rawLines content) = true
  ∧ out = writeLines (dropCR <$> rawLines content)
  ∧ rawLines out
    = (λ t, strings.TrimRight t " ") <$> (dropCR <$> rawLines content).
Proof.
  unfold sanitize. destruct (forallb fits (rawLines content)) eqn:Hfit; [|done].
  intros [= <-]. do 2 (split; [done|]). apply rawLines_writeLines.
  intros t (r & -> & Hr)%list_elem_of_fmap.
  by apply hasByte_dropCR, (rawLines_no_newline content).
Qed.


End Sanitize.




(** ** Install lines *)

Section Installs.
Context `{Collaborators}.

Lemma Sorted_Strings (l : list string) : Sorted String.le (sort.Strings l).
Proof. apply (Sorted_merge_sort String.le). Qed.

Lemma Permutation_Strings (l : list string) : sort.Strings l ≡ₚ l.
Proof. apply (merge_sort_Permutation String.le). Qed.

(** The order in which the keys are enumerated does not show after the
    sort. *)
Lemma Strings_enumeration (l1 l2 : list string) :
  l1 ≡ₚ l2 → sort.Strings l1 = sort.Strings l2.
Proof.
  intros Hperm. apply (Sorted_unique String.le); [apply Sorted_Strings..|].
  by rewrite !Permutation_Strings.
Qed.

Lemma NoDup_keys (m : gmap string bool) : NoDup (keys m).
Proof. apply NoDup_fst_map_to_list. Qed.

(** The map of guessed lines reads the kind, the name and the two extra
    attributes of the artifact, and nothing else. *)
Lemma installMap_reads (a b : artifact.Artifact) :
  artifact.Type_ a = artifact.Type_ b →
  artifact.Name a = artifact.Name b →
  artifact.Extra a !! artifact.ExtraBinary = artifact.Extra b !! artifact.ExtraBinary →
  artifact.Extra a !! artifact.ExtraBinaries = artifact.Extra b !! artifact.ExtraBinaries →
  installMap a = installMap b.
Proof.
  intros Htype Hname Hbin Hbins. unfold installMap.
  unfold artifact.ExtraOr_string, artifact.ExtraOr_strings.
  by rewrite Htype, Hname, Hbin, Hbins.
Qed.

End Installs.

(** C4, as the code has it: without an explicit install snippet the
    install lines are the guessed lines followed by the extra-install lines.
    The guessed lines are sorted and without duplicates, whatever the order
    in which the keys of the map come out; they are a function of the kind
    of the artifact, its name, its binary-name extra attribute and its
    bundled-binaries extra attribute; and an artifact that is neither an
    uploadable binary nor an uploadable archive has none. *)
Theorem installs_guessed `{Collaborators} (cfg : Homebrew.t)
    (art : artifact.Artifact) (extraInstall : string) :
  tmpl_ApplyWithArtifact art (Homebrew.ExtraInstall cfg) = Ok extraInstall →
  tmpl_ApplyWithArtifact art (Homebrew.Install cfg) = Ok "" →
  installs cfg art = Ok (guessedInstall art ++ split extraInstall)%list
  ∧ Sorted String.le (guessedInstall art)
  ∧ NoDup (guessedInstall art)
  ∧ (∀ enumeration, enumeration ≡ₚ keys (installMap art) →
       sort.Strings enumeration = guessedInstall art)
  ∧ (∀ art',
       artifact.Type_ art' = artifact.Type_ art →
       artifact.Name art' = artifact.Name art →
       artifact.Extra art' !! artifact.ExtraBinary
         = artifact.Extra art !! artifact.ExtraBinary →
       artifact.Extra art' !! artifact.ExtraBinaries
         = artifact.Extra art !! artifact.ExtraBinaries →
       guessedInstall art' = guessedInstall art)
  ∧ (artifact.Type_ art ≠ artifact.UploadableBinary →
     artifact.Type_ art ≠ artifact.UploadableArchive →
     guessedInstall art = []).
Proof.
  intros Hextra Hinstall. repeat split.
  - unfold installs. by rewrite Hextra, Hinstall.
  - apply Sorted_Strings.
  - unfold guessedInstall. rewrite Permutation_Strings. apply NoDup_keys.
  - intros enumeration Hperm. by apply Strings_enumeration.
  - intros art' Htype Hname Hbin Hbins. unfold guessedInstall.
    by rewrite (installMap_reads art' art).
  - intros Hbinary Harchive. unfold guessedInstall, installMap.
    by destruct (artifact.Type_ art).
Qed.

Lemma installs_guessed_witness :
  let art := artifact.mk "foo.tar.gz" "dist/foo.tar.gz" "linux" "amd64" "" "v1"
               artifact.UploadableArchive
               {[ artifact.ExtraBinaries := artifact.XStrings ["foo"; "bar"; "foo"] ]} in
  guessedInstall art
  = ["bin.install " +:+ strconv.Quote "bar"; "bin.install " +:+ strconv.Quote "foo"]
  ∧ installs (H := demo.collaborators) (demo.brew "tap" "" 0) art = Ok (guessedInstall art ++ split "")%list
  ∧ Sorted String.le (guessedInstall art).
Proof.
  intros art.
  destruct (installs_guessed (H := demo.collaborators)
              (demo.brew "tap" "" 0) art "" eq_refl eq_refl)
    as (Hinstalls & Hsorted & _).
  split; [by vm_compute|]. split; [exact Hinstalls|exact Hsorted].
Defined.

(** C4 as stated fails: two uploadable binaries of the same kind and name,
    with the same (absent) bundled-binaries attribute, get different lines
    when their binary-name attributes differ. *)
Lemma guessedInstall_reads_binary_name :
  let a := artifact.mk "foo_linux" "dist/foo" "linux" "amd64" "" "v1"
             artifact.UploadableBinary {[ artifact.ExtraBinary := artifact.XString "foo" ]} in
  let b := artifact.mk "foo_linux" "dist/foo" "linux" "amd64" "" "v1"
             artifact.UploadableBinary {[ artifact.ExtraBinary := artifact.XString "bar" ]} in
  artifact.Type_ a = artifact.Type_ b
  ∧ artifact.Name a = artifact.Name b
  ∧ artifact.Extra a !! artifact.ExtraBinaries = artifact.Extra b !! artifact.ExtraBinaries
  ∧ installs (H := demo.collaborators) (demo.brew "tap" "" 0) a
    = Ok ["bin.install " +:+ strconv.Quote "foo_linux" +:+ " => " +:+ strconv.Quote "foo"]
  ∧ installs (H := demo.collaborators) (demo.brew "tap" "" 0) b
    = Ok ["bin.install " +:+ strconv.Quote "foo_linux" +:+ " => " +:+ strconv.Quote "bar"]
  ∧ installs (H := demo.collaborators) (demo.brew "tap" "" 0) a ≠ installs (H := demo.collaborators) (demo.brew "tap" "" 0) b.
Proof. by vm_compute. Qed.

(** ** The order of the packages *)

Lemma ltb_irrefl (s : string) : String.ltb s s = false.
Proof.
  unfold String.ltb. pose proof (String.compare_antisym s s) as Hanti.
  destruct (String.compare s s); [done| |done]. discriminate Hanti.
Qed.

(** Within one list all packages have the same [OS], so the comparator
    never holds. *)
Lemma lessFnFor_same_OS (a b : releasePackage) : OS a = OS b → lessFnFor a b = false.
Proof. intros Heq. unfold lessFnFor. by rewrite Heq, ltb_irrefl. Qed.

Lemma fold_insertLeft_never {A : Type} (less : A → A → bool) (l prefix : list A) :
  (∀ x y, x ∈ l → y ∈ (l ++ prefix)%list → less x y = false) →
  fold_left (λ prefix x, sort.insertLeft less x prefix) l prefix
  = (rev l ++ prefix)%list.
Proof.
  revert prefix. induction l as [|x l IH]; intros prefix Hless; [done|].
  cbn [fold_left rev].
  assert (sort.insertLeft less x prefix = x :: prefix) as ->.
  { destruct prefix as [|y prefix]; [done|]. cbn.
    rewrite Hless; [done|by left|]. apply elem_of_app. right. by left. }
  rewrite IH.
  - by rewrite <- app_assoc.
  - intros a b Ha Hb. apply Hless; [by right|].
    apply elem_of_app in Hb as [Hb|Hb].
    + right. apply elem_of_app. by left.
    + apply elem_of_cons in Hb as [->|Hb]; [by left|].
      right. apply elem_of_app. by right.
Qed.

(** A comparator that never holds leaves the slice as it is. *)
Lemma Slice_never {A : Type} (less : A → A → bool) (l : list A) :
  (∀ x y, x ∈ l → y ∈ l → less x y = false) → sort.Slice less l = l.
Proof.
  intros Hless. unfold sort.Slice. rewrite fold_insertLeft_never.
  - by rewrite app_nil_r, rev_involutive.
  - intros x y Hx Hy. rewrite app_nil_r in Hy. by apply Hless.
Qed.

Lemma Slice_lessFnFor_same_OS (l : list releasePackage) :
  (∀ a b, a ∈ l → b ∈ l → OS a = OS b) → sort.Slice lessFnFor l = l.
Proof. intros Hos. apply Slice_never. intros a b Ha Hb. by apply lessFnFor_same_OS, Hos. Qed.

Section Order.
Context `{Collaborators}.

Lemma ByGoos_spec goos art :
  artifact.ByGoos goos art = String.eqb (artifact.Goos art) goos.
Proof.
  unfold artifact.ByGoos, artifact.str_eqb.
  destruct (String.eqb_spec (artifact.Goos art) goos).
  - by rewrite bool_decide_eq_true_2.
  - by rewrite bool_decide_eq_false_2.
Qed.

Lemma dataFor_step_macOS cl cfg res counts art cfg' res' counts' :
  dataFor_step cl (cfg, res, counts) art = Ok (cfg', res', counts') →
  Forall (λ p, OS p = "darwin") (MacOSPackages res) →
  Forall (λ p, OS p = "darwin") (MacOSPackages res')
  ∧ Arch <$> MacOSPackages res'
    = ((Arch <$> MacOSPackages res) ++ archsFor "darwin" [art])%list.
Proof.
  unfold dataFor_step, result_bind, archsFor. cbn [List.filter OS Arch].
  rewrite ByGoos_spec. intros Hstep Hall.
  repeat case_match; simplify_eq; cbn.
  all: try (rewrite app_nil_r; by split).
  all: split; [|by rewrite fmap_app].
  all: apply Forall_app; split; [done|].
  all: repeat constructor; cbn; by apply String.eqb_eq.
Qed.

Lemma dataFor_loop_macOS cl arts cfg res counts cfg' res' counts' :
  dataFor_loop cl arts (cfg, res, counts) = Ok (cfg', res', counts') →
  Forall (λ p, OS p = "darwin") (MacOSPackages res) →
  Forall (λ p, OS p = "darwin") (MacOSPackages res')
  ∧ Arch <$> MacOSPackages res'
    = ((Arch <$> MacOSPackages res) ++ archsFor "darwin" arts)%list.
Proof.
  revert cfg res counts. induction arts as [|art arts IH]; intros cfg res counts.
  - intros [= -> -> ->] Hall. unfold archsFor. cbn. by rewrite app_nil_r.
  - cbn [dataFor_loop]. unfold result_bind at 1.
    destruct (dataFor_step cl (cfg, res, counts) art) as [[[cfg1 res1] counts1]|] eqn:Hstep;
      [|done].
    intros Hloop Hall.
    destruct (dataFor_step_macOS _ _ _ _ _ _ _ _ Hstep Hall) as [Hall1 Harch1].
    destruct (IH _ _ _ Hloop Hall1) as [Hall' Harch'].
    split; [done|]. rewrite Harch', Harch1, <- app_assoc. f_equal.
    unfold archsFor. cbn [List.filter].
    destruct (artifact.ByGoos "darwin" art); by cbn.
Qed.

(** Whenever [dataFor] succeeds, the macOS packages are in the order in
    which their artifacts were given: the sort does not move them. *)
Lemma dataFor_macOS_order cfg cl arts w data :
  (dataFor cfg cl arts w).1 = Ok data →
  Arch <$> MacOSPackages data = archsFor "darwin" arts.
Proof.
  unfold dataFor, mbind, M_bind, bind, modify, get, lift. cbn [fst].
  match goal with
  | |- context [dataFor_loop cl arts ?st] =>
      destruct (dataFor_loop cl arts st) as [[[cfg' res'] counts']|e] eqn:Hloop
  end; cbn [result_bind]; [|done].
  destruct (existsb _ _); [done|].
  apply dataFor_loop_macOS in Hloop as [Hall Harch]; [|by constructor].
  cbn in Harch. intros [= <-]. cbn [MacOSPackages set_MacOSPackages].
  match goal with
  | |- context [sort.Slice lessFnFor (MacOSPackages ?flagged)] =>
      assert (MacOSPackages flagged = MacOSPackages res') as ->
        by (repeat case_match; cbn; congruence)
  end.
  rewrite Slice_lessFnFor_same_OS; [done|].
  intros a b Ha Hb. rewrite Forall_forall in Hall.
  by rewrite (Hall a Ha), (Hall b Hb).
Qed.

End Order.

(** C3 fails on the code: the macOS packages come out in the order of the
    artifacts.  The same two artifacts give the list amd64, arm64 (which is
    not descending) in one order and arm64, amd64 in the other. *)
Theorem dataFor_keeps_artifact_order :
  demo.macOSArchs [demo.darwin "amd64"; demo.darwin "arm64"] = Ok ["amd64"; "arm64"]
  ∧ demo.macOSArchs [demo.darwin "arm64"; demo.darwin "amd64"] = Ok ["arm64"; "amd64"]
  ∧ String.ltb "amd64" "arm64" = true.
Proof. by vm_compute. Qed.

(** ** Ambiguous artifacts *)

Section Assembler.
Context `{Collaborators}.

Lemma dataFor_step_counts cl cfg res counts art cfg' res' counts' :
  dataFor_step cl (cfg, res, counts) art = Ok (cfg', res', counts') →
  counts' = <[ platformKey art := S (default 0 (counts !! platformKey art)) ]> counts.
Proof.
  unfold dataFor_step, result_bind, platformKey. cbn [OS Arch].
  intros Hstep. repeat case_match; by simplify_eq.
Qed.

Lemma occurrences_cons k art arts :
  occurrences k (art :: arts)
  = ((if decide (platformKey art = k) then 1 else 0) + occurrences k arts)%nat.
Proof. unfold occurrences. rewrite filter_cons. by case_decide. Qed.

(** The loop counts every artifact once, under its key. *)
Lemma dataFor_loop_counts cl arts cfg res counts cfg' res' counts' k :
  dataFor_loop cl arts (cfg, res, counts) = Ok (cfg', res', counts') →
  default 0%nat (counts' !! k)
  = (default 0%nat (counts !! k) + occurrences k arts)%nat.
Proof.
  revert cfg res counts. induction arts as [|art arts IH]; intros cfg res counts.
  - intros [= -> -> ->]. unfold occurrences. cbn. lia.
  - cbn [dataFor_loop]. unfold result_bind at 1.
    destruct (dataFor_step cl (cfg, res, counts) art) as [[[cfg1 res1] counts1]|] eqn:Hstep;
      [|done].
    intros Hloop. rewrite (IH _ _ _ Hloop), occurrences_cons.
    apply dataFor_step_counts in Hstep as ->.
    destruct (decide (platformKey art = k)) as [<-|Hne].
    + rewrite lookup_insert_eq. cbn. lia.
    + rewrite lookup_insert_ne by done. lia.
Qed.

Lemma filter_two {A : Type} (P : A → Prop) `{∀ x, Decision (P x)}
    (l : list A) (i j : nat) (a b : A) :
  i ≠ j → l !! i = Some a → l !! j = Some b → P a → P b →
  (2 ≤ length (filter P l))%nat.
Proof.
  revert i j. induction l as [|x l IH]; intros i j Hij Hi Hj Pa Pb; [done|].
  assert (∀ y n, l !! n = Some y → P y → (1 ≤ length (filter P l))%nat) as Hone.
  { intros y n Hn Py.
    assert (y ∈ filter P l) as Hy.
    { apply list_elem_of_filter. split; [done|]. by eapply list_elem_of_lookup_2. }
    destruct (filter P l); [by apply elem_of_nil in Hy|cbn; lia]. }
  rewrite filter_cons. destruct i as [|i], j as [|j]; [done|..]; cbn in Hi, Hj.
  - simplify_eq. rewrite decide_True by done. cbn. specialize (Hone b j Hj Pb). lia.
  - simplify_eq. rewrite decide_True by done. cbn. specialize (Hone a i Hi Pa). lia.
  - assert (2 ≤ length (filter P l))%nat by (eapply (IH i j); eauto).
    case_decide; cbn; lia.
Qed.

Lemma ambiguous_occurrences arts :
  ambiguous arts → ∃ k, (2 ≤ occurrences k arts)%nat.
Proof.
  intros (i & j & a & b & Hij & Hi & Hj & Hos & Harch).
  exists (platformKey a). unfold occurrences.
  apply (filter_two _ arts i j a b); [done..|].
  unfold platformKey. by rewrite Hos, Harch.
Qed.

Lemma counts_exceeded (counts : gmap string nat) (k : string) :
  (2 ≤ default 0%nat (counts !! k))%nat →
  existsb (λ v, 1 <? v)%nat (map_to_list counts).*2 = true.
Proof.
  intros Hk. destruct (counts !! k) as [v|] eqn:Hv; cbn in Hk; [|lia].
  apply existsb_exists. exists v. split; [|apply Nat.ltb_lt; lia].
  apply list_elem_of_In, list_elem_of_fmap. exists (k, v). split; [done|].
  by apply elem_of_map_to_list.
Qed.


Lemma dataFor_world cfg cl arts w :
  (dataFor cfg cl arts w).2 = sortedHeap cfg w.
Proof. done. Qed.


End Assembler.

(** ** Runs of one recipe *)

Section Run.
Context `{Collaborators}.

Lemma buildFormula_run brew cl arts w :
  buildFormula brew cl arts w
  = match (dataFor brew cl arts w).1 with
    | Ok data => (doBuildFormula data, sortedHeap brew w)
    | Err e => (Err e, sortedHeap brew w)
    end.
Proof.
  unfold buildFormula, mbind, M_bind, bind, lift.
  rewrite (surjective_pairing (dataFor brew cl arts w)), dataFor_world.
  by destruct (dataFor brew cl arts w).1.
Qed.


End Run.




(** ** Selection and the repository guard *)

(** C2, as the code has it: when the repository name of the recipe is set
    and the filters select no artifact, [doRun] fails with the no-archives
    error, which carries the ARM revision, the AMD64 level and the IDs of
    the recipe; nothing else happens. *)
Theorem doRun_no_archives `{Collaborators} (brew : Homebrew.t) (cl : client.Client)
    (w : World) :
  RepoRef.Name (Homebrew.Repository brew) ≠ "" →
  archivesOf brew w = [] →
  doRun brew cl w
  = (Err (ErrNoArchivesFound (Homebrew.Goarm brew) (Homebrew.Goamd64 brew)
            (Homebrew.IDs brew)), w).
Proof.
  intros Hname Hnone. unfold doRun.
  destruct (String.eqb_spec (RepoRef.Name (Homebrew.Repository brew)) ""); [done|].
  unfold mbind, M_bind, bind, get. fold (archivesOf brew w). by rewrite Hnone.
Qed.

Lemma doRun_no_archives_witness :
  let brew := demo.brew "tap" "" 0 in
  let w := demo.world [brew] [demo.binary "foo.exe" "dist/foo.exe" "windows" "amd64"] ∅ in
  doRun (H := demo.collaborators) brew (demo.hosting false) w
  = (Err (ErrNoArchivesFound "6" "v1" []), w).
Proof.
  intros brew w.
  apply (doRun_no_archives (H := demo.collaborators) brew (demo.hosting false) w).
  - by vm_compute.
  - by vm_compute.
Defined.

(** C2 as stated fails: with an empty repository name the run is skipped
    before anything is selected, also when no artifact would match. *)
Lemma doRun_no_archives_unset_repository :
  let brew := demo.brew "" "" 0 in
  let w := demo.world [brew] [] ∅ in
  archivesOf brew w = []
  ∧ doRun (H := demo.collaborators) brew (demo.hosting false) w
    = (Err (ErrSkip "brew.repository.name is not set"), w)
  ∧ (doRun (H := demo.collaborators) brew (demo.hosting false) w).1
    ≠ Err (ErrNoArchivesFound (Homebrew.Goarm brew) (Homebrew.Goamd64 brew)
             (Homebrew.IDs brew)).
Proof. by vm_compute. Qed.

(** C9, as the code has it: with an empty repository name [doRun] returns
    at once with the skip signal, which [pipe.IsSkip] recognises, and leaves
    the world as it is. *)
Theorem doRun_unset_repository `{Collaborators} (brew : Homebrew.t)
    (cl : client.Client) (w : World) :
  RepoRef.Name (Homebrew.Repository brew) = "" →
  doRun brew cl w = (Err (ErrSkip "brew.repository.name is not set"), w)
  ∧ IsSkip (ErrSkip "brew.repository.name is not set") = true.
Proof. intros Hname. unfold doRun. by rewrite Hname. Qed.

Lemma doRun_unset_repository_witness :
  let brew := demo.brew "" "" 0 in
  let w := demo.world [brew] [demo.darwin "arm64"] ∅ in
  doRun (H := demo.collaborators) brew (demo.hosting false) w
  = (Err (ErrSkip "brew.repository.name is not set"), w)
  ∧ IsSkip (ErrSkip "brew.repository.name is not set") = true.
Proof.
  intros brew w.
  apply (doRun_unset_repository (H := demo.collaborators) brew (demo.hosting false) w).
  reflexivity.
Defined.

(** C9 as stated fails: the outcome for an empty repository name is not a
    fatal error. *)
Lemma doRun_unset_repository_not_fatal :
  let brew := demo.brew "" "" 0 in
  let w := demo.world [brew] [demo.darwin "arm64"] ∅ in
  ¬ ∃ e, (doRun (H := demo.collaborators) brew (demo.hosting false) w).1 = Err e
         ∧ IsSkip e = false.
Proof. intros brew w (e & [= <-] & Hfatal). discriminate Hfatal. Qed.

(** ** Publication *)

Section Publish.
Context `{Collaborators}.

Lemma TrimSpace_true : strings.TrimSpace "true" = "true".
Proof. done. Qed.

Lemma TrimSpace_auto : strings.TrimSpace "auto" = "auto".
Proof. done. Qed.

(** The recipe of a formula artifact is read back from its extra
    attribute. *)
Lemma Extra_Homebrew_lookup formula brew :
  artifact.Extra formula !! brewConfigExtra = Some (artifact.XHomebrew brew) →
  artifact.Extra_Homebrew formula brewConfigExtra = Ok brew.
Proof. intros Hbrew. unfold artifact.Extra_Homebrew. by rewrite Hbrew. Qed.

End Publish.

(** C7: for every formula artifact, with [brew] the recipe read back from
    it, [doPublish] returns the skip signal and sends nothing when the
    skip-upload value of the recipe is the literal true, or is auto while
    the release is a prerelease. *)
Theorem doPublish_skips `{Collaborators} (formula : artifact.Artifact)
    (cl : client.Client) (w : World) (brew : Homebrew.t) :
  artifact.Extra_Homebrew formula brewConfigExtra = Ok brew →
  Homebrew.SkipUpload brew = "true"
  ∨ (Homebrew.SkipUpload brew = "auto" ∧ Prerelease w ≠ "") →
  ∃ e, doPublish formula cl w = (Err e, w)
       ∧ IsSkip e = true
       ∧ network (doPublish formula cl w).2 = network w.
Proof.
  intros Hbrew Hskip. unfold doPublish.
  unfold mbind, M_bind, bind, lift, get, fail. rewrite Hbrew.
  destruct Hskip as [->|[-> Hpre]].
  - rewrite TrimSpace_true. change (String.eqb "true" "true") with true.
    by eexists.
  - rewrite TrimSpace_auto. change (String.eqb "auto" "true") with false.
    change (String.eqb "auto" "auto") with true. cbv beta iota.
    destruct (String.eqb_spec (Prerelease w) "") as [|_]; [done|].
    by eexists.
Qed.

Lemma doPublish_skips_witness :
  let brew := demo.brew "tap" "auto" 0 in
  let w := demo.rendered brew "rc1" in
  ∃ e, doPublish (H := demo.collaborators) (demo.formula brew) (demo.hosting true) w
       = (Err e, w)
       ∧ IsSkip e = true
       ∧ network (doPublish (H := demo.collaborators) (demo.formula brew)
                    (demo.hosting true) w).2 = network w.
Proof.
  intros brew w.
  apply (doPublish_skips (H := demo.collaborators) (demo.formula brew)
           (demo.hosting true) w brew).
  - by vm_compute.
  - right. by vm_compute.
Defined.




(** ** The stored recipes *)

Lemma insertLeft_Permutation {A : Type} (less : A → A → bool) (x : A) (prefix : list A) :
  sort.insertLeft less x prefix ≡ₚ x :: prefix.
Proof.
  induction prefix as [|y prefix IH]; [done|]. cbn.
  destruct (less x y); [|done]. rewrite IH. apply Permutation_swap.
Qed.

(** Sorting a slice keeps its elements. *)
Lemma Slice_Permutation {A : Type} (less : A → A → bool) (l : list A) :
  sort.Slice less l ≡ₚ l.
Proof.
  unfold sort.Slice. rewrite <- Permutation_rev.
  assert (∀ prefix,
            fold_left (λ prefix x, sort.insertLeft less x prefix) l prefix
            ≡ₚ (l ++ prefix)%list) as Hfold.
  { induction l as [|x l IH]; intros prefix; [done|]. cbn [fold_left].
    rewrite IH, insertLeft_Permutation. cbn. by rewrite Permutation_middle. }
  by rewrite Hfold, app_nil_r.
Qed.

#[local] Instance reordered_refl : Reflexive reordered.
Proof. intros h l. done. Qed.

#[local] Instance reordered_trans : Transitive reordered.
Proof. intros h1 h2 h3 H12 H23 l. etrans; [apply H12|apply H23]. Qed.

Lemma reordered_alter (f : list BrewDependency.t → list BrewDependency.t)
    (l : loc) (h : gmap loc (list BrewDependency.t)) :
  (∀ deps, f deps ≡ₚ deps) → reordered h (alter f l h).
Proof.
  intros Hf l'. rewrite lookup_alter. case_decide; [subst|done].
  destruct (h !! l') as [deps|]; constructor. by rewrite Hf.
Qed.

#[local] Instance keepsConfig_refl : Reflexive keepsConfig.
Proof. by intros w. Qed.

#[local] Instance keepsConfig_trans : Transitive keepsConfig.
Proof.
  intros w1 w2 w3 [Hb12 Hh12] [Hb23 Hh23]. split; [congruence|by etrans].
Qed.

Section Frame.
Context `{Collaborators}.

Lemma preserves_ret {A : Type} (a : A) : preservesConfig (mret a).
Proof. by intros w. Qed.

Lemma preserves_fail {A : Type} (e : error) : preservesConfig (fail (A := A) e).
Proof. by intros w. Qed.

Lemma preserves_lift {A : Type} (r : result A) : preservesConfig (lift r).
Proof. by intros w. Qed.

Lemma preserves_get : preservesConfig get.
Proof. by intros w. Qed.

Lemma preserves_modify (f : World → World) :
  (∀ w, keepsConfig w (f w)) → preservesConfig (modify f).
Proof. intros Hf w. apply Hf. Qed.

Lemma preserves_bind {A B : Type} (c : M A) (k : A → M B) :
  preservesConfig c → (∀ a, preservesConfig (k a)) → preservesConfig (c ≫= k).
Proof.
  intros Hc Hk w. unfold mbind, M_bind, bind. specialize (Hc w).
  destruct (c w) as [[a|e] w1]; [|done]. etrans; [exact Hc|apply Hk].
Qed.

Lemma preserves_wrapError {A : Type} (msg : string) (c : M A) :
  preservesConfig c → preservesConfig (wrapError msg c).
Proof.
  intros Hc w. unfold wrapError. specialize (Hc w). by destruct (c w) as [[a|e] w1].
Qed.

Lemma preserves_dataFor cfg cl arts : preservesConfig (dataFor cfg cl arts).
Proof.
  intros w. rewrite dataFor_world. split; [done|].
  apply reordered_alter, Slice_Permutation.
Qed.

Lemma preserves_buildFormula brew cl arts : preservesConfig (buildFormula brew cl arts).
Proof.
  apply preserves_bind; [apply preserves_dataFor|]. intros data. apply preserves_lift.
Qed.

Lemma preserves_MkdirAll dir : preservesConfig (MkdirAll dir).
Proof.
  unfold MkdirAll. destruct (MkdirAll_error dir); [apply preserves_fail|].
  by apply preserves_modify.
Qed.

Lemma preserves_WriteFile path content : preservesConfig (WriteFile path content).
Proof.
  unfold WriteFile. destruct (WriteFile_error path); [apply preserves_fail|].
  by apply preserves_modify.
Qed.

Lemma preserves_Artifacts_Add a : preservesConfig (Artifacts_Add a).
Proof. by apply preserves_modify. Qed.

(** One run of a recipe assigns to its own copy only. *)
Lemma preserves_doRun brew cl : preservesConfig (doRun brew cl).
Proof.
  unfold doRun. destruct (String.eqb _ ""); [apply preserves_fail|].
  apply preserves_bind; [apply preserves_get|]. intros w0. cbv zeta.
  destruct (length _ =? 0)%nat; [apply preserves_fail|].
  apply preserves_bind; [apply preserves_lift|]. intros name.
  apply preserves_bind; [apply preserves_lift|]. intros ref.
  apply preserves_bind; [apply preserves_lift|]. intros skipUpload.
  apply preserves_bind; [apply preserves_buildFormula|]. intros content.
  apply preserves_bind; [apply preserves_MkdirAll|]. intros _.
  apply preserves_bind; [apply preserves_wrapError, preserves_WriteFile|]. intros _.
  apply preserves_bind; [apply preserves_Artifacts_Add|]. intros _.
  apply preserves_ret.
Qed.

Lemma preserves_runAll_loop brews cl : preservesConfig (runAll_loop brews cl).
Proof.
  induction brews as [|brew brews IH]; [apply preserves_ret|].
  cbn [runAll_loop]. apply preserves_bind; [apply preserves_doRun|]. by intros _.
Qed.

Lemma preserves_runAll cl : preservesConfig (runAll cl).
Proof.
  apply preserves_bind; [apply preserves_get|]. intros w. apply preserves_runAll_loop.
Qed.

End Frame.

Section Registry.
Context `{Collaborators}.

(** A run that succeeds appends the formula artifact, which carries the
    resolved recipe, and writes the formula file. *)
Lemma doRun_Ok_inv brew cl w :
  (doRun brew cl w).1 = Ok tt →
  ∃ resolved content,
    resolves brew resolved
    ∧ Artifacts (doRun brew cl w).2
      = (Artifacts w ++
         [artifact.mk (Homebrew.Name resolved +:+ ".rb")
            (filepath_Join [Dist w; "homebrew"; Homebrew.Folder resolved;
                            Homebrew.Name resolved +:+ ".rb"])
            "" "" "" "" artifact.BrewTap
            {[ brewConfigExtra := artifact.XHomebrew resolved ]}])%list
    ∧ files (doRun brew cl w).2
      = <[ filepath_Join [Dist w; "homebrew"; Homebrew.Folder resolved;
                          Homebrew.Name resolved +:+ ".rb"] := content ]> (files w).
Proof.
  unfold doRun. destruct (String.eqb _ ""); [done|].
  unfold mbind, M_bind, bind, get, lift, fail, mret, M_ret, ret.
  destruct (length _ =? 0)%nat; [done|].
  destruct (tmpl_Apply (Homebrew.Name brew)) as [name|e] eqn:Hname; [|done].
  cbn [Homebrew.Repository Homebrew.set_Name].
  destruct (TemplateRef tmpl_Apply _) as [ref|e] eqn:Href; [|done].
  cbn [Homebrew.SkipUpload Homebrew.set_Name Homebrew.set_Repository].
  destruct (tmpl_Apply (Homebrew.SkipUpload _)) as [skipUpload|e] eqn:Hskip; [|done].
  rewrite buildFormula_run.
  destruct (dataFor _ cl _ w).1 as [data|e]; [|done].
  destruct (doBuildFormula data) as [content|e]; [|done].
  unfold MkdirAll, wrapError, WriteFile, Artifacts_Add, modify, fail.
  destruct (MkdirAll_error _); [done|].
  destruct (WriteFile_error _); [done|].
  intros _. eexists _, content. split; [by eexists _, _, _|]. done.
Qed.

End Registry.

(** C10, as the code has it: [doRun] works on a copy of the recipe.  After
    [runAll], whatever its outcome, the recipes stored in the configuration
    are as before, field by field; what can change is the order of the
    elements of a dependencies slice, which [dataFor] sorts in place.  A run
    that succeeds adds one artifact to the registry, after those that were
    there, and this artifact carries the resolved recipe as its BrewConfig
    extra attribute. *)
Theorem runAll_keeps_recipes `{Collaborators} (cl : client.Client) (w : World) :
  Brews (runAll cl w).2 = Brews w
  ∧ reordered (heap w) (heap (runAll cl w).2)
  ∧ (∀ brew, storedDependencies (runAll cl w).2 brew ≡ₚ storedDependencies w brew)
  ∧ (∀ brew w0,
       (doRun brew cl w0).1 = Ok tt →
       Brews (doRun brew cl w0).2 = Brews w0
       ∧ ∃ resolved formula,
           resolves brew resolved
           ∧ Artifacts (doRun brew cl w0).2 = (Artifacts w0 ++ [formula])%list
           ∧ artifact.Type_ formula = artifact.BrewTap
           ∧ artifact.Extra formula
             = {[ brewConfigExtra := artifact.XHomebrew resolved ]}).
Proof.
  destruct (preserves_runAll cl w) as [Hbrews Hheap].
  split; [done|]. split; [done|]. split.
  - intros brew. unfold storedDependencies.
    destruct (Hheap (Homebrew.Dependencies brew)) as [deps deps' Hperm|]; [|done].
    by symmetry.
  - intros brew w0 Hok. split; [apply (preserves_doRun brew cl w0)|].
    destruct (doRun_Ok_inv brew cl w0 Hok) as (resolved & content & Hres & Harts & _).
    eexists resolved, _. by repeat split.
Qed.

(** C10 as stated fails: the dependencies of the stored recipe are in
    another order after the run. *)
Lemma runAll_sorts_stored_dependencies :
  let brew := demo.brew "tap" "" 0 in
  let zlib := BrewDependency.mk "zlib" "" "" in
  let curl := BrewDependency.mk "curl" "" "" in
  let w := demo.world [brew] [demo.darwin "arm64"] {[ 0%nat := [zlib; curl] ]} in
  (runAll (H := demo.collaborators) (demo.hosting false) w).1 = Ok tt
  ∧ Brews w = [brew]
  ∧ storedDependencies w brew = [zlib; curl]
  ∧ storedDependencies (runAll (H := demo.collaborators) (demo.hosting false) w).2 brew
    = [curl; zlib].
Proof. by vm_compute. Qed.

(** * Further properties of the pipe *)

(** ** Lines of a snippet *)

Lemma Split_nonempty (t : string) (c : ascii) : strings.Split t c ≠ [].
Proof.
  induction t as [|a t IH]; [done|]. cbn.
  destruct (Ascii.eqb a c); [done|]. by destruct (strings.Split t c).
Qed.

(** Joining the fields with the separator gives the text back. *)
Lemma concat_Split (t : string) (c : ascii) :
  String.concat (String c "") (strings.Split t c) = t.
Proof.
  induction t as [|a t IH]; [done|]. cbn [strings.Split].
  pose proof (Split_nonempty t c) as Hne.
  destruct (Ascii.eqb_spec a c) as [->|Hac].
  - destruct (strings.Split t c) as [|f fs]; [done|].
    cbn [String.concat] in *. by rewrite append_nil_l, append_cons, append_nil_l, IH.
  - destruct (strings.Split t c) as [|f fs]; [done|].
    destruct fs as [|g fs]; cbn [String.concat] in *; [by rewrite IH|].
    by rewrite append_cons, IH.
Qed.

Lemma Split_no_separator (t : string) (c : ascii) (f : string) :
  f ∈ strings.Split t c → hasByte c f = false.
Proof.
  revert f. induction t as [|a t IH]; intros f.
  - by intros ->%list_elem_of_singleton.
  - cbn [strings.Split]. destruct (Ascii.eqb a c) eqn:Hac.
    + intros [->|Hf]%elem_of_cons; [done|]. by apply IH.
    + pose proof (Split_nonempty t c) as Hne.
      destruct (strings.Split t c) as [|g gs]; [done|].
      intros [->|Hf]%elem_of_cons.
      * cbn [hasByte]. rewrite Hac. apply IH. by left.
      * apply IH. by right.
Qed.

(** X1: [split] cuts the trimmed text at its line feeds and nowhere else:
    joining the lines with line feeds gives the trimmed text back, no line
    holds a line feed, and there is no line exactly when the trimmed text is
    empty. *)
Theorem split_lines (s : string) :
  String.concat (String newline "") (split s) = strings.TrimSpace s
  ∧ (∀ l, l ∈ split s → hasByte newline l = false)
  ∧ (split s = [] ↔ strings.TrimSpace s = "").
Proof.
  unfold split. pose proof (concat_Split (strings.TrimSpace s) newline) as Hjoin.
  pose proof (Split_no_separator (strings.TrimSpace s) newline) as Hfree.
  pose proof (Split_nonempty (strings.TrimSpace s) newline) as Hne.
  destruct (strings.Split (strings.TrimSpace s) newline) as [|l ls] eqn:Hsplit; [done|].
  destruct l as [|a l], ls as [|l' ls]; cbn [String.concat] in Hjoin.
  - split; [done|]. split; [by intros ? ?%elem_of_nil|done].
  - split; [done|]. split; [done|]. split; [done|]. intros Hempty.
    rewrite Hempty in Hjoin. by rewrite append_nil_l in Hjoin.
  - split; [done|]. split; [done|]. split; [done|]. intros Hempty.
    by rewrite Hempty in Hjoin.
  - split; [done|]. split; [done|]. split; [done|]. intros Hempty.
    by rewrite Hempty in Hjoin.
Qed.

(** ** The characters of a formula name *)








(** ** The order of the dependencies *)

Lemma Sorted_weaken {A : Type} (R1 R2 : relation A) (l : list A) :
  (∀ a b, R1 a b → R2 a b) → Sorted R1 l → Sorted R2 l.
Proof.
  intros Himpl. induction 1 as [|x l Hl IH Hhd]; constructor; [done|].
  destruct Hhd; constructor. by apply Himpl.
Qed.

(** Inserting into a sorted prefix keeps it sorted, as soon as the
    comparator never holds both ways. *)
Lemma insertLeft_Sorted {A : Type} (less : A → A → bool) (x : A) (prefix : list A) :
  (∀ a b, less a b = true → less b a = false) →
  Sorted (λ a b, less a b = false) prefix →
  Sorted (λ a b, less a b = false) (sort.insertLeft less x prefix).
Proof.
  intros Hasym. induction prefix as [|y prefix IH]; intros Hsorted.
  - by repeat constructor.
  - cbn [sort.insertLeft]. destruct (less x y) eqn:Hxy.
    + apply Sorted_inv in Hsorted as [Hsorted Hhd]. constructor; [by apply IH|].
      destruct prefix as [|z prefix]; cbn [sort.insertLeft].
      * constructor. by apply Hasym.
      * destruct (less x z); constructor; [by inversion Hhd|by apply Hasym].
    + constructor; [done|]. by constructor.
Qed.

Lemma Slice_Sorted {A : Type} (less : A → A → bool) (l : list A) :
  (∀ a b, less a b = true → less b a = false) →
  Sorted (λ a b, less b a = false) (sort.Slice less l).
Proof.
  intros Hasym. unfold sort.Slice. rewrite rev_alt.
  apply (Sorted_reverse (λ a b, less a b = false)).
  assert (∀ prefix, Sorted (λ a b, less a b = false) prefix →
            Sorted (λ a b, less a b = false)
              (fold_left (λ prefix x, sort.insertLeft less x prefix) l prefix)) as Hfold.
  { induction l as [|x l IH]; intros prefix Hprefix; [done|].
    cbn [fold_left]. by apply IH, insertLeft_Sorted. }
  apply Hfold. constructor.
Qed.

Lemma ltb_asym (s t : string) : String.ltb s t = true → String.ltb t s = false.
Proof.
  unfold String.ltb. rewrite (String.compare_antisym t s).
  by destruct (String.compare s t).
Qed.

Lemma ltb_false_le (s t : string) : String.ltb t s = false → String.le s t.
Proof.
  unfold String.le, String.leb, String.ltb. rewrite (String.compare_antisym t s).
  by destruct (String.compare s t).
Qed.

Lemma Slice_lessDependency_Sorted (deps : list BrewDependency.t) :
  Sorted byName (sort.Slice lessDependency deps).
Proof.
  apply (Sorted_weaken (λ a b, lessDependency b a = false)).
  - intros a b. apply ltb_false_le.
  - apply Slice_Sorted. intros a b. apply ltb_asym.
Qed.

Lemma storedDependencies_sortedHeap (cfg : Homebrew.t) (w : World) :
  storedDependencies (sortedHeap cfg w) cfg
  = sort.Slice lessDependency (storedDependencies w cfg).
Proof.
  unfold storedDependencies, sortedHeap. cbn [heap set_heap].
  rewrite lookup_alter, decide_True by done.
  by destruct (heap w !! Homebrew.Dependencies cfg).
Qed.

Section Dependencies.
Context `{Collaborators}.

Lemma dataFor_step_Dependencies cl cfg res counts art cfg' res' counts' :
  dataFor_step cl (cfg, res, counts) art = Ok (cfg', res', counts') →
  Dependencies res' = Dependencies res.
Proof.
  unfold dataFor_step, result_bind. intros Hstep.
  repeat case_match; by simplify_eq.
Qed.

Lemma dataFor_loop_Dependencies cl arts cfg res counts cfg' res' counts' :
  dataFor_loop cl arts (cfg, res, counts) = Ok (cfg', res', counts') →
  Dependencies res' = Dependencies res.
Proof.
  revert cfg res counts. induction arts as [|art arts IH]; intros cfg res counts.
  - by intros [= -> -> ->].
  - cbn [dataFor_loop]. unfold result_bind at 1.
    destruct (dataFor_step cl (cfg, res, counts) art) as [[[cfg1 res1] counts1]|] eqn:Hstep;
      [|done].
    intros Hloop. rewrite (IH _ _ _ Hloop). by eapply dataFor_step_Dependencies.
Qed.

End Dependencies.

(** X3: [dataFor] leaves the dependencies of the recipe sorted by name, in
    the configuration that holds them, with the elements they had; the
    data it returns lists them in that order. *)
Theorem dataFor_sorts_dependencies `{Collaborators} (cfg : Homebrew.t)
    (cl : client.Client) (arts : list artifact.Artifact) (w : World) :
  Sorted byName (storedDependencies (dataFor cfg cl arts w).2 cfg)
  ∧ storedDependencies (dataFor cfg cl arts w).2 cfg ≡ₚ storedDependencies w cfg
  ∧ (∀ data, (dataFor cfg cl arts w).1 = Ok data →
       Dependencies data = storedDependencies (dataFor cfg cl arts w).2 cfg).
Proof.
  rewrite dataFor_world, storedDependencies_sortedHeap.
  split; [apply Slice_lessDependency_Sorted|]. split; [apply Slice_Permutation|].
  intros data. unfold dataFor, mbind, M_bind, bind, modify, get, lift. cbn [fst].
  match goal with
  | |- context [dataFor_loop cl arts ?st] =>
      destruct (dataFor_loop cl arts st) as [[[cfg' res'] counts']|e] eqn:Hloop
  end; cbn [result_bind]; [|done].
  destruct (existsb _ _); [done|]. intros [= <-].
  apply dataFor_loop_Dependencies in Hloop. cbn [Dependencies] in Hloop.
  fold (sortedHeap cfg w) in Hloop. fold (storedDependencies (sortedHeap cfg w) cfg) in Hloop.
  rewrite storedDependencies_sortedHeap in Hloop. rewrite <- Hloop.
  by repeat case_match.
Qed.

(** ** What [dataFor] assembles *)

Section Packages.
Context `{Collaborators}.

(** The install lines read two fields of the recipe. *)
Lemma installs_fields (c1 c2 : Homebrew.t) (art : artifact.Artifact) :
  Homebrew.Install c1 = Homebrew.Install c2 →
  Homebrew.ExtraInstall c1 = Homebrew.ExtraInstall c2 →
  installs c1 art = installs c2 art.
Proof. intros Hi He. unfold installs. by rewrite Hi, He. Qed.

Lemma tracks_refl cl cfg : tracks cl cfg cfg.
Proof. repeat split; by left. Qed.

(** One turn of the loop: the package of the artifact goes to the list of
    its OS, the flag and the other list stay. *)
Lemma dataFor_step_inv cl cfg0 cfg res counts art cfg' res' counts' :
  tracks cl cfg0 cfg →
  dataFor_step cl (cfg, res, counts) art = Ok (cfg', res', counts') →
  tracks cl cfg0 cfg'
  ∧ HasOnlyAmd64MacOsPkg res' = HasOnlyAmd64MacOsPkg res
  ∧ ∃ pkg, packageOf cfg0 cl art pkg
      ∧ MacOSPackages res'
        = (MacOSPackages res ++ if artifact.ByGoos "darwin" art then [pkg] else [])%list
      ∧ LinuxPackages res'
        = (LinuxPackages res ++ if artifact.ByGoos "linux" art then [pkg] else [])%list.
Proof.
  intros (Hi & He & Hd & Hu). unfold dataFor_step, result_bind. rewrite !ByGoos_spec.
  destruct (Checksum art "sha256") as [sum|] eqn:Hsum; [|done].
  destruct (String.eqb_spec (Homebrew.URLTemplate cfg) "") as [Hempty|Hset].
  - destruct (client.ReleaseURLTemplate cl) as [url|] eqn:Hurl; [|done].
    destruct (tmpl_ApplyWithArtifact art _) as [u|] eqn:Hu'; [|done].
    destruct (installs _ art) as [install|] eqn:Hinst; [|done].
    cbn [OS Arch]. intros [= <- <- <-].
    assert (Homebrew.URLTemplate cfg0 = "") as Hempty0.
    { destruct Hu as [<-|[? _]]; done. }
    split; [by repeat split; try right|]. split; [by repeat case_match|].
    exists (mkReleasePackage u sum (artifact.Goos art) (artifact.Goarch art)
              (Homebrew.DownloadStrategy cfg) install).
    split.
    + repeat split; cbn; [done| |done|].
      * rewrite <- Hinst. by apply installs_fields.
      * exists url. split; [by right|done].
    + destruct (String.eqb_spec (artifact.Goos art) "darwin") as [Hdarwin|_];
        destruct (String.eqb_spec (artifact.Goos art) "linux") as [Hlinux|_];
        try (rewrite Hdarwin in Hlinux; discriminate Hlinux);
        cbn; by rewrite ?app_nil_r.
  - destruct (tmpl_ApplyWithArtifact art _) as [u|] eqn:Hu'; [|done].
    destruct (installs _ art) as [install|] eqn:Hinst; [|done].
    cbn [OS Arch]. intros [= <- <- <-].
    split; [done|]. split; [by repeat case_match|].
    exists (mkReleasePackage u sum (artifact.Goos art) (artifact.Goarch art)
              (Homebrew.DownloadStrategy cfg) install).
    split.
    + repeat split; cbn; [done| |done|].
      * rewrite <- Hinst. by apply installs_fields.
      * exists (Homebrew.URLTemplate cfg). split; [|done].
        destruct Hu as [Heq|[Hempty0 Hrel]]; [left|right]; [|done].
        split; [congruence|done].
    + destruct (String.eqb_spec (artifact.Goos art) "darwin") as [Hdarwin|_];
        destruct (String.eqb_spec (artifact.Goos art) "linux") as [Hlinux|_];
        try (rewrite Hdarwin in Hlinux; discriminate Hlinux);
        cbn; by rewrite ?app_nil_r.
Qed.

(** The loop: the packages of the artifacts for each OS, in their order. *)
Lemma dataFor_loop_inv cl cfg0 arts cfg res counts cfg' res' counts' :
  tracks cl cfg0 cfg →
  dataFor_loop cl arts (cfg, res, counts) = Ok (cfg', res', counts') →
  HasOnlyAmd64MacOsPkg res' = HasOnlyAmd64MacOsPkg res
  ∧ ∃ mac lin,
      Forall2 (packageOf cfg0 cl) (artifactsFor "darwin" arts) mac
      ∧ Forall2 (packageOf cfg0 cl) (artifactsFor "linux" arts) lin
      ∧ MacOSPackages res' = (MacOSPackages res ++ mac)%list
      ∧ LinuxPackages res' = (LinuxPackages res ++ lin)%list.
Proof.
  revert cfg res counts. induction arts as [|art arts IH]; intros cfg res counts Htracks.
  - intros [= -> -> ->]. split; [done|]. exists [], [].
    rewrite !app_nil_r. by repeat split; constructor.
  - cbn [dataFor_loop]. unfold result_bind at 1.
    destruct (dataFor_step cl (cfg, res, counts) art) as [[[cfg1 res1] counts1]|] eqn:Hstep;
      [|done].
    intros Hloop.
    destruct (dataFor_step_inv _ _ _ _ _ _ _ _ _ Htracks Hstep)
      as (Htracks1 & Hflag1 & pkg & Hpkg & Hmac1 & Hlin1).
    destruct (IH _ _ _ Htracks1 Hloop) as (Hflag & mac & lin & Hmac & Hlin & Hmac' & Hlin').
    split; [congruence|]. unfold artifactsFor. cbn [List.filter].
    exists ((if artifact.ByGoos "darwin" art then [pkg] else []) ++ mac)%list,
      ((if artifact.ByGoos "linux" art then [pkg] else []) ++ lin)%list.
    rewrite Hmac', Hlin', Hmac1, Hlin1, <- !app_assoc.
    split; [|split; [|done]].
    + destruct (artifact.ByGoos "darwin" art); [by constructor|exact Hmac].
    + destruct (artifact.ByGoos "linux" art); [by constructor|exact Hlin].
Qed.

(** What a successful [dataFor] has done. *)
Lemma dataFor_Ok_inv cfg cl arts w data :
  (dataFor cfg cl arts w).1 = Ok data →
  ∃ mac lin,
    Forall2 (packageOf cfg cl) (artifactsFor "darwin" arts) mac
    ∧ Forall2 (packageOf cfg cl) (artifactsFor "linux" arts) lin
    ∧ MacOSPackages data = sort.Slice lessFnFor mac
    ∧ LinuxPackages data = sort.Slice lessFnFor lin
    ∧ HasOnlyAmd64MacOsPkg data
      = match mac with
        | [p] => String.eqb (Arch p) "amd64"
        | _ => false
        end
    ∧ ∀ k, (occurrences k arts ≤ 1)%nat.
Proof.
  unfold dataFor, mbind, M_bind, bind, modify, get, lift. cbn [fst].
  match goal with
  | |- context [dataFor_loop cl arts ?st] =>
      destruct (dataFor_loop cl arts st) as [[[cfg' res'] counts']|e] eqn:Hloop
  end; cbn [result_bind]; [|done].
  destruct (existsb _ _) eqn:Hcounts; [done|].
  pose proof (dataFor_loop_inv _ cfg _ _ _ _ _ _ _ (tracks_refl cl cfg) Hloop)
    as (Hflag & mac & lin & Hmac & Hlin & Hmac' & Hlin').
  cbn in Hflag, Hmac', Hlin'. intros [= <-]. exists mac, lin.
  split; [done|]. split; [done|].
  assert (∀ k, (occurrences k arts ≤ 1)%nat) as Hocc.
  { intros k. destruct (decide (occurrences k arts ≤ 1)%nat) as [|Hmany]; [done|].
    rewrite (counts_exceeded counts' k) in Hcounts; [done|].
    rewrite (dataFor_loop_counts _ _ _ _ _ _ _ _ k Hloop), lookup_empty. cbn. lia. }
  rewrite <- Hmac', <- Hlin'.
  destruct (MacOSPackages res') as [|p [|q rest]] eqn:Hres; cbn; [by rewrite ?Hres..| |].
  - destruct (String.eqb (Arch p) "amd64") eqn:Harch; cbn; by rewrite ?Hres.
  - by rewrite ?Hres.
Qed.

Lemma Forall2_packageOf_Arch cfg cl arts pkgs :
  Forall2 (packageOf cfg cl) arts pkgs → Arch <$> pkgs = artifact.Goarch <$> arts.
Proof.
  induction 1 as [|art pkg arts pkgs (_ & _ & Harch & _) _ IH]; [done|].
  cbn. by rewrite Harch, IH.
Qed.

(** When no key is counted twice, the architectures for one OS are
    different from each other. *)
Lemma NoDup_archsFor goos arts :
  (∀ k, (occurrences k arts ≤ 1)%nat) → NoDup (archsFor goos arts).
Proof.
  unfold archsFor. induction arts as [|a arts IH]; intros Hocc; [constructor|].
  assert (∀ k, (occurrences k arts ≤ 1)%nat) as Hocc'.
  { intros k. specialize (Hocc k). rewrite occurrences_cons in Hocc. lia. }
  cbn [List.filter]. destruct (artifact.ByGoos goos a) eqn:Ha; [|by apply IH].
  cbn. constructor; [|by apply IH].
  intros (b & Harch & Hb)%list_elem_of_fmap.
  apply list_elem_of_In, filter_In in Hb as [Hb Hgoos].
  rewrite ByGoos_spec in Ha, Hgoos.
  apply String.eqb_eq in Ha, Hgoos.
  specialize (Hocc (platformKey a)). rewrite occurrences_cons, decide_True in Hocc by done.
  assert (1 ≤ occurrences (platformKey a) arts)%nat; [|lia].
  unfold occurrences.
  assert (b ∈ filter (λ x, platformKey x = platformKey a) arts) as Hin.
  { apply list_elem_of_filter. split; [|by apply list_elem_of_In].
    unfold platformKey. by rewrite Hgoos, Ha, Harch. }
  destruct (filter _ arts); [by apply elem_of_nil in Hin|cbn; lia].
Qed.

End Packages.

(** X4: when [dataFor] succeeds, each of the two package lists has at most
    one package per architecture, and no two artifacts of the list share
    their OS and architecture. *)
Theorem dataFor_unambiguous `{Collaborators} (cfg : Homebrew.t) (cl : client.Client)
    (arts : list artifact.Artifact) (w : World) (data : templateData) :
  (dataFor cfg cl arts w).1 = Ok data →
  NoDup (Arch <$> MacOSPackages data)
  ∧ NoDup (Arch <$> LinuxPackages data)
  ∧ ¬ ambiguous arts.
Proof.
  intros Hok.
  destruct (dataFor_Ok_inv _ _ _ _ _ Hok) as (mac & lin & Hmac & Hlin & -> & -> & _ & Hocc).
  rewrite !Slice_Permutation.
  rewrite (Forall2_packageOf_Arch _ _ _ _ Hmac), (Forall2_packageOf_Arch _ _ _ _ Hlin).
  split; [by apply (NoDup_archsFor "darwin")|]. split; [by apply (NoDup_archsFor "linux")|].
  intros [k Hk]%ambiguous_occurrences. specialize (Hocc k). lia.
Qed.

Lemma dataFor_unambiguous_witness :
  ∃ data, (sample.assembled sample.three).1 = Ok data
          ∧ NoDup (Arch <$> MacOSPackages data)
          ∧ NoDup (Arch <$> LinuxPackages data)
          ∧ ¬ ambiguous sample.three.
Proof.
  eexists. split; [by vm_compute|].
  apply (dataFor_unambiguous (H := demo.collaborators) sample.recipe (demo.hosting false)
           sample.three (demo.world [sample.recipe] sample.three ∅)).
  by vm_compute.
Defined.

(** X5: when [dataFor] succeeds, the macOS packages are the packages of the
    artifacts for darwin, one for each, and the Linux packages those of the
    artifacts for linux; an artifact for another OS gives no package.  The
    package of an artifact has its checksum, OS, architecture and install
    lines, and the URL that the template of the recipe (or else the one of
    the host) gives for it. *)
Theorem dataFor_packages `{Collaborators} (cfg : Homebrew.t) (cl : client.Client)
    (arts : list artifact.Artifact) (w : World) (data : templateData) :
  (dataFor cfg cl arts w).1 = Ok data →
  ∃ mac lin,
    Forall2 (packageOf cfg cl) (artifactsFor "darwin" arts) mac
    ∧ MacOSPackages data ≡ₚ mac
    ∧ Forall2 (packageOf cfg cl) (artifactsFor "linux" arts) lin
    ∧ LinuxPackages data ≡ₚ lin.
Proof.
  intros Hok.
  destruct (dataFor_Ok_inv _ _ _ _ _ Hok) as (mac & lin & Hmac & Hlin & -> & -> & _).
  exists mac, lin. by rewrite !Slice_Permutation.
Qed.

Lemma dataFor_packages_witness :
  ∃ data, (sample.assembled sample.three).1 = Ok data
    ∧ ∃ mac lin,
        Forall2 (packageOf (H := demo.collaborators) sample.recipe (demo.hosting false))
          (artifactsFor "darwin" sample.three) mac
        ∧ MacOSPackages data ≡ₚ mac
        ∧ Forall2 (packageOf (H := demo.collaborators) sample.recipe (demo.hosting false))
            (artifactsFor "linux" sample.three) lin
        ∧ LinuxPackages data ≡ₚ lin.
Proof.
  eexists. split; [by vm_compute|].
  apply (dataFor_packages (H := demo.collaborators) sample.recipe (demo.hosting false)
           sample.three (demo.world [sample.recipe] sample.three ∅)).
  by vm_compute.
Defined.

(** X6: when [dataFor] succeeds, it sets [HasOnlyAmd64MacOsPkg] exactly when
    the artifacts for darwin are one artifact, for amd64. *)
Theorem dataFor_only_amd64_macOS `{Collaborators} (cfg : Homebrew.t)
    (cl : client.Client) (arts : list artifact.Artifact) (w : World)
    (data : templateData) :
  (dataFor cfg cl arts w).1 = Ok data →
  HasOnlyAmd64MacOsPkg data = true ↔ archsFor "darwin" arts = ["amd64"].
Proof.
  intros Hok.
  destruct (dataFor_Ok_inv _ _ _ _ _ Hok) as (mac & lin & Hmac & _ & _ & _ & -> & _).
  apply Forall2_packageOf_Arch in Hmac. unfold archsFor. fold (artifactsFor "darwin" arts).
  rewrite <- Hmac. destruct mac as [|p [|q mac]]; cbn; [done| |done].
  rewrite String.eqb_eq. split; [by intros ->|by intros [= ->]].
Qed.

Lemma dataFor_only_amd64_macOS_witness :
  ∃ data, (sample.assembled sample.single).1 = Ok data
          ∧ (HasOnlyAmd64MacOsPkg data = true ↔ archsFor "darwin" sample.single = ["amd64"])
          ∧ HasOnlyAmd64MacOsPkg data = true.
Proof.
  eexists. split; [by vm_compute|]. split; [|by vm_compute].
  apply (dataFor_only_amd64_macOS (H := demo.collaborators) sample.recipe
           (demo.hosting false) sample.single
           (demo.world [sample.recipe] sample.single ∅)).
  by vm_compute.
Defined.

(** ** The template of the download URL *)

Section Override.
Context `{Collaborators}.

Lemma dataFor_step_override cl1 cl2 cfg res counts art :
  Homebrew.URLTemplate cfg ≠ "" →
  dataFor_step cl1 (cfg, res, counts) art = dataFor_step cl2 (cfg, res, counts) art
  ∧ ∀ cfg' res' counts',
      dataFor_step cl1 (cfg, res, counts) art = Ok (cfg', res', counts') → cfg' = cfg.
Proof.
  intros Hset. unfold dataFor_step, result_bind.
  destruct (String.eqb_spec (Homebrew.URLTemplate cfg) ""); [done|].
  split; [done|]. intros cfg' res' counts' Hstep.
  repeat case_match; by simplify_eq.
Qed.

Lemma dataFor_loop_override cl1 cl2 arts cfg res counts :
  Homebrew.URLTemplate cfg ≠ "" →
  dataFor_loop cl1 arts (cfg, res, counts) = dataFor_loop cl2 arts (cfg, res, counts).
Proof.
  intros Hset. revert res counts. induction arts as [|art arts IH]; intros res counts; [done|].
  cbn [dataFor_loop].
  destruct (dataFor_step_override cl1 cl2 cfg res counts art Hset) as [<- Hcfg].
  destruct (dataFor_step cl1 (cfg, res, counts) art) as [[[cfg1 res1] counts1]|] eqn:Hstep;
    [|done].
  cbn [result_bind]. rewrite (Hcfg _ _ _ eq_refl). apply IH.
Qed.

End Override.

(** X7: a recipe with a URL template of its own does not need the host:
    [dataFor] gives the same outcome whatever the client is, also one whose
    [ReleaseURLTemplate] fails. *)
Theorem dataFor_URLTemplate_override `{Collaborators} (cfg : Homebrew.t)
    (cl1 cl2 : client.Client) (arts : list artifact.Artifact) (w : World) :
  Homebrew.URLTemplate cfg ≠ "" →
  dataFor cfg cl1 arts w = dataFor cfg cl2 arts w.
Proof.
  intros Hset. unfold dataFor, mbind, M_bind, bind, modify, get, lift.
  by rewrite (dataFor_loop_override cl1 cl2).
Qed.

Lemma dataFor_URLTemplate_override_witness :
  let w := demo.world [sample2.withURL] sample.three ∅ in
  dataFor (H := demo.collaborators) sample2.withURL sample2.noTemplate sample.three w
  = dataFor (H := demo.collaborators) sample2.withURL (demo.hosting true) sample.three w.
Proof.
  intros w.
  apply (dataFor_URLTemplate_override (H := demo.collaborators) sample2.withURL
           sample2.noTemplate (demo.hosting true) sample.three w).
  by vm_compute.
Defined.

(** ** The install lines of an archive *)

Lemma lookup_installMap_fold (bins : list string) (m : gmap string bool) (l : string) :
  is_Some (fold_left (λ m bin, <[ installLine bin := true ]> m) bins m !! l)
  ↔ (∃ bin, bin ∈ bins ∧ l = installLine bin) ∨ is_Some (m !! l).
Proof.
  revert m. induction bins as [|b bins IH]; intros m.
  - cbn. split; [by right|]. intros [(bin & []%elem_of_nil & _)|]; done.
  - cbn [fold_left]. rewrite IH. split.
    + intros [(bin & Hbin & ->)|Hl].
      * left. exists bin. split; [by right|done].
      * destruct (decide (installLine b = l)) as [<-|Hne].
        -- left. exists b. split; [by left|done].
        -- right. by rewrite lookup_insert_ne in Hl.
    + intros [(bin & [->|Hbin]%elem_of_cons & ->)|Hl].
      * right. by rewrite lookup_insert_eq.
      * left. by exists bin.
      * right. destruct (decide (installLine b = l)) as [<-|Hne].
        -- by rewrite lookup_insert_eq.
        -- by rewrite lookup_insert_ne.
Qed.

Lemma elem_of_keys (m : gmap string bool) (l : string) : l ∈ keys m ↔ is_Some (m !! l).
Proof.
  unfold keys. rewrite list_elem_of_fmap. split.
  - intros ([k v] & -> & Hkv). apply elem_of_map_to_list in Hkv. by exists v.
  - intros [v Hv]. exists (l, v). split; [done|]. by apply elem_of_map_to_list.
Qed.

(** X8: for an uploadable archive the guessed install lines are the lines of
    its bundled binaries: every binary of the extra attribute has its line,
    and there is no other line. *)
Theorem guessedInstall_archive (art : artifact.Artifact) (l : string) :
  artifact.Type_ art = artifact.UploadableArchive →
  l ∈ guessedInstall art
  ↔ ∃ bin, bin ∈ artifact.ExtraOr_strings art artifact.ExtraBinaries []
           ∧ l = installLine bin.
Proof.
  intros Harchive. unfold guessedInstall, installMap. rewrite Harchive.
  rewrite Permutation_Strings, elem_of_keys.
  change (λ (m : gmap string bool) (bin : string),
            <[ "bin.install " +:+ strconv.Quote bin := true ]> m)
    with (λ (m : gmap string bool) (bin : string), <[ installLine bin := true ]> m).
  rewrite lookup_installMap_fold, lookup_empty. split; [|by left].
  intros [?|[? [=]]]; done.
Qed.

Lemma guessedInstall_archive_witness :
  installLine "bar" ∈ guessedInstall sample2.archive
  ↔ ∃ bin, bin ∈ artifact.ExtraOr_strings sample2.archive artifact.ExtraBinaries []
           ∧ installLine "bar" = installLine bin.
Proof.
  apply (guessedInstall_archive sample2.archive (installLine "bar")). reflexivity.
Defined.

(** ** Relations that the steps of the pipe keep *)

Section Keeps.
Context `{Collaborators}.
Context (R : relation World) `{!Reflexive R, !Transitive R}.

Lemma keeps_ret {A : Type} (a : A) : keeps R (mret a).
Proof. by intros w. Qed.

Lemma keeps_fail {A : Type} (e : error) : keeps R (fail (A := A) e).
Proof. by intros w. Qed.

Lemma keeps_lift {A : Type} (r : result A) : keeps R (lift r).
Proof. by intros w. Qed.

Lemma keeps_get : keeps R get.
Proof. by intros w. Qed.

Lemma keeps_modify (f : World → World) : (∀ w, R w (f w)) → keeps R (modify f).
Proof. intros Hf w. apply Hf. Qed.

Lemma keeps_bind {A B : Type} (c : M A) (k : A → M B) :
  keeps R c → (∀ a, keeps R (k a)) → keeps R (c ≫= k).
Proof.
  intros Hc Hk w. unfold mbind, M_bind, bind. specialize (Hc w).
  destruct (c w) as [[a|e] w1]; [|done]. etrans; [exact Hc|apply Hk].
Qed.

Lemma keeps_wrapError {A : Type} (msg : string) (c : M A) :
  keeps R c → keeps R (wrapError msg c).
Proof.
  intros Hc w. unfold wrapError. specialize (Hc w). by destruct (c w) as [[a|e] w1].
Qed.

End Keeps.

(** ** The run of all recipes *)

#[local] Instance appendsFormulas_refl : Reflexive appendsFormulas.
Proof. intros w. split; [|done]. exists []. by rewrite app_nil_r. Qed.

#[local] Instance appendsFormulas_trans : Transitive appendsFormulas.
Proof.
  intros w1 w2 w3 [(f12 & H12 & Hf12) Hn12] [(f23 & H23 & Hf23) Hn23].
  split; [|congruence]. exists (f12 ++ f23)%list.
  split; [by rewrite H23, H12, app_assoc|by apply Forall_app].
Qed.

Section RunAll.
Context `{Collaborators}.

Lemma appendsFormulas_same w w' :
  Artifacts w' = Artifacts w → network w' = network w → appendsFormulas w w'.
Proof. intros Harts Hnet. split; [|done]. exists []. by rewrite app_nil_r. Qed.

Lemma appends_dataFor cfg cl arts : keeps appendsFormulas (dataFor cfg cl arts).
Proof. intros w. rewrite dataFor_world. by apply appendsFormulas_same. Qed.

Lemma appends_doRun brew cl : keeps appendsFormulas (doRun brew cl).
Proof.
  unfold doRun. destruct (String.eqb _ ""); [by apply (keeps_fail appendsFormulas)|].
  apply (keeps_bind appendsFormulas); [by apply (keeps_get appendsFormulas)|]. intros w0. cbv zeta.
  destruct (length _ =? 0)%nat; [by apply (keeps_fail appendsFormulas)|].
  apply (keeps_bind appendsFormulas); [by apply (keeps_lift appendsFormulas)|]. intros name.
  apply (keeps_bind appendsFormulas); [by apply (keeps_lift appendsFormulas)|]. intros ref.
  apply (keeps_bind appendsFormulas); [by apply (keeps_lift appendsFormulas)|]. intros skipUpload.
  apply (keeps_bind appendsFormulas).
  { apply (keeps_bind appendsFormulas); [apply appends_dataFor|]. intros data.
    by apply (keeps_lift appendsFormulas). }
  intros content.
  apply (keeps_bind appendsFormulas).
  { unfold MkdirAll. destruct (MkdirAll_error _); [by apply (keeps_fail appendsFormulas)|].
    apply (keeps_modify appendsFormulas). intros w. by apply appendsFormulas_same. }
  intros _.
  apply (keeps_bind appendsFormulas).
  { apply (keeps_wrapError appendsFormulas). unfold WriteFile.
    destruct (WriteFile_error _); [by apply (keeps_fail appendsFormulas)|].
    apply (keeps_modify appendsFormulas). intros w. by apply appendsFormulas_same. }
  intros _.
  apply (keeps_bind appendsFormulas); [|by intros; apply (keeps_ret appendsFormulas)].
  apply (keeps_modify appendsFormulas). intros w. split; [|done].
  eexists [_]. split; [done|]. by repeat constructor.
Qed.

Lemma appends_runAll_loop brews cl : keeps appendsFormulas (runAll_loop brews cl).
Proof.
  induction brews as [|brew brews IH]; [by apply (keeps_ret appendsFormulas)|].
  cbn [runAll_loop]. apply (keeps_bind appendsFormulas); [apply appends_doRun|]. by intros _.
Qed.

(** The runs of two lists of recipes, one after the other. *)
Lemma runAll_loop_app l1 l2 cl w :
  runAll_loop (l1 ++ l2) cl w
  = match runAll_loop l1 cl w with
    | (Ok _, w') => runAll_loop l2 cl w'
    | (Err e, w') => (Err e, w')
    end.
Proof.
  revert w. induction l1 as [|brew l1 IH]; intros w; [done|].
  cbn [app runAll_loop]. unfold mbind, M_bind, bind.
  destruct (doRun brew cl w) as [[[]|e] w1]; [apply IH|done].
Qed.

(** A run that fails has registered nothing. *)
Lemma doRun_Err_Artifacts brew cl w e :
  (doRun brew cl w).1 = Err e → Artifacts (doRun brew cl w).2 = Artifacts w.
Proof.
  unfold doRun. destruct (String.eqb _ ""); [done|].
  unfold mbind, M_bind, bind, get, lift, fail, mret, M_ret, ret.
  destruct (length _ =? 0)%nat; [done|].
  destruct (tmpl_Apply (Homebrew.Name brew)) as [name|]; [|done].
  destruct (TemplateRef tmpl_Apply _) as [ref|]; [|done].
  destruct (tmpl_Apply (Homebrew.SkipUpload _)) as [skipUpload|]; [|done].
  rewrite buildFormula_run.
  destruct (dataFor _ cl _ w).1 as [data|]; [|done].
  destruct (doBuildFormula data) as [content|]; [|done].
  unfold MkdirAll, wrapError, WriteFile, Artifacts_Add, modify, fail.
  destruct (MkdirAll_error _); [done|].
  by destruct (WriteFile_error _).
Qed.

End RunAll.

(** X9: [runAll] stops at the first recipe whose run returns an error, the
    skip signal included: it returns that error, and the recipes after it
    are not run. *)
Theorem runAll_first_error `{Collaborators} (before after : list Homebrew.t)
    (brew : Homebrew.t) (cl : client.Client) (w : World) (e : error) :
  Brews w = (before ++ brew :: after)%list →
  (runAll_loop before cl w).1 = Ok tt →
  (doRun brew cl (runAll_loop before cl w).2).1 = Err e →
  runAll cl w = (Err e, (doRun brew cl (runAll_loop before cl w).2).2).
Proof.
  intros Hbrews Hbefore Hbrew. unfold runAll, mbind, M_bind, bind, get.
  rewrite Hbrews, runAll_loop_app.
  destruct (runAll_loop before cl w) as [[[]|] w1]; [|done].
  cbn [runAll_loop snd] in *. unfold mbind, M_bind, bind.
  destruct (doRun brew cl w1) as [[[]|e'] w2]; [done|]. by simplify_eq/=.
Qed.

Lemma runAll_first_error_witness :
  let w := mkWorld sample.unnamedFirst "dist" "1.0.0" "" [demo.darwin "arm64"] ∅ [] ∅ [] in
  runAll (H := demo.collaborators) (demo.hosting false) w
  = (Err (ErrSkip "brew.repository.name is not set"), w).
Proof.
  intros w.
  apply (runAll_first_error (H := demo.collaborators) [] [demo.brew "tap" "" 1]
           (demo.brew "" "" 0) (demo.hosting false) w
           (ErrSkip "brew.repository.name is not set")); reflexivity.
Defined.

(** X10: the run phase only adds to the registry and sends nothing.  After
    [runAll] the artifacts that were registered are there as before, what
    follows them are formula artifacts, and the network has seen no call; a
    run of a recipe that fails has registered nothing. *)
Theorem runAll_appends_formulas `{Collaborators} (cl : client.Client) (w : World) :
  (∃ formulas,
     Artifacts (runAll cl w).2 = (Artifacts w ++ formulas)%list
     ∧ Forall (λ a, artifact.Type_ a = artifact.BrewTap) formulas)
  ∧ network (runAll cl w).2 = network w
  ∧ (∀ brew w0 e, (doRun brew cl w0).1 = Err e →
       Artifacts (doRun brew cl w0).2 = Artifacts w0).
Proof.
  assert (keeps appendsFormulas (runAll cl)) as Hkeeps.
  { apply (keeps_bind appendsFormulas); [by apply (keeps_get appendsFormulas)|]. intros w0.
    apply appends_runAll_loop. }
  destruct (Hkeeps w) as [Hformulas Hnetwork].
  split; [done|]. split; [done|]. intros brew w0 e. apply doRun_Err_Artifacts.
Qed.

(** ** From the run to the publication *)

Section ReadBack.
Context `{Collaborators}.

(** What a successful run has done, step by step. *)
Lemma doRun_Ok_steps brew cl w :
  (doRun brew cl w).1 = Ok tt →
  ∃ resolved data content,
    resolves brew resolved
    ∧ (dataFor resolved cl (archivesOf brew w) w).1 = Ok data
    ∧ doBuildFormula data = Ok content
    ∧ Artifacts (doRun brew cl w).2
      = (Artifacts w ++
         [artifact.mk (Homebrew.Name resolved +:+ ".rb")
            (filepath_Join [Dist w; "homebrew"; Homebrew.Folder resolved;
                            Homebrew.Name resolved +:+ ".rb"])
            "" "" "" "" artifact.BrewTap
            {[ brewConfigExtra := artifact.XHomebrew resolved ]}])%list
    ∧ files (doRun brew cl w).2
      = <[ filepath_Join [Dist w; "homebrew"; Homebrew.Folder resolved;
                          Homebrew.Name resolved +:+ ".rb"] := content ]> (files w)
    ∧ Prerelease (doRun brew cl w).2 = Prerelease w
    ∧ network (doRun brew cl w).2 = network w.
Proof.
  unfold doRun. destruct (String.eqb _ ""); [done|].
  unfold mbind, M_bind, bind, get, lift, fail, mret, M_ret, ret.
  fold (archivesOf brew w).
  destruct (length _ =? 0)%nat; [done|].
  destruct (tmpl_Apply (Homebrew.Name brew)) as [name|e] eqn:Hname; [|done].
  cbn [Homebrew.Repository Homebrew.set_Name].
  destruct (TemplateRef tmpl_Apply _) as [ref|e] eqn:Href; [|done].
  cbn [Homebrew.SkipUpload Homebrew.set_Name Homebrew.set_Repository].
  destruct (tmpl_Apply (Homebrew.SkipUpload _)) as [skipUpload|e] eqn:Hskip; [|done].
  rewrite buildFormula_run.
  destruct (dataFor _ cl _ w).1 as [data|e] eqn:Hdata; [|done].
  destruct (doBuildFormula data) as [content|e] eqn:Hbuild; [|done].
  unfold MkdirAll, wrapError, WriteFile, Artifacts_Add, modify, fail.
  destruct (MkdirAll_error _); [done|].
  destruct (WriteFile_error _); [done|].
  intros _. eexists _, data, content. split; [by eexists _, _, _|]. done.
Qed.

End ReadBack.

(** X11: what a successful run registers, the publisher can read back.  The
    last artifact of the registry is the formula; it is named after the
    resolved recipe, [artifact.Extra] returns that recipe from it, and the
    file at its path holds the text that [doBuildFormula] made of the data
    assembled for the resolved recipe. *)
Theorem doRun_formula_reads_back `{Collaborators} (brew : Homebrew.t)
    (cl : client.Client) (w : World) :
  (doRun brew cl w).1 = Ok tt →
  ∃ resolved formula content,
    resolves brew resolved
    ∧ last (Artifacts (doRun brew cl w).2) = Some formula
    ∧ artifact.Name formula = Homebrew.Name resolved +:+ ".rb"
    ∧ artifact.Extra_Homebrew formula brewConfigExtra = Ok resolved
    ∧ ReadFile (artifact.Path formula) (doRun brew cl w).2
      = (Ok content, (doRun brew cl w).2)
    ∧ ∃ data, (dataFor resolved cl (archivesOf brew w) w).1 = Ok data
              ∧ doBuildFormula data = Ok content.
Proof.
  intros Hok.
  destruct (doRun_Ok_steps brew cl w Hok)
    as (resolved & data & content & Hres & Hdata & Hbuild & Harts & Hfiles & _).
  eexists resolved, _, content. split; [done|]. rewrite Harts, last_snoc.
  split; [done|]. split; [done|]. split.
  { unfold artifact.Extra_Homebrew. cbn [artifact.Extra]. by rewrite lookup_singleton_eq. }
  split; [|by exists data].
  unfold ReadFile, mbind, M_bind, bind, get. cbn [artifact.Path].
  by rewrite Hfiles, lookup_insert_eq.
Qed.

Lemma doRun_formula_reads_back_witness :
  let w := demo.world [sample.recipe] [demo.darwin "arm64"] ∅ in
  ∃ resolved formula content,
    resolves (H := demo.collaborators) sample.recipe resolved
    ∧ last (Artifacts (doRun (H := demo.collaborators) sample.recipe
                         (demo.hosting false) w).2) = Some formula
    ∧ artifact.Name formula = Homebrew.Name resolved +:+ ".rb"
    ∧ artifact.Extra_Homebrew formula brewConfigExtra = Ok resolved
    ∧ ReadFile (artifact.Path formula)
        (doRun (H := demo.collaborators) sample.recipe (demo.hosting false) w).2
      = (Ok content, (doRun (H := demo.collaborators) sample.recipe
                        (demo.hosting false) w).2)
    ∧ ∃ data, (dataFor (H := demo.collaborators) resolved (demo.hosting false)
                 (archivesOf sample.recipe w) w).1 = Ok data
              ∧ doBuildFormula (H := demo.collaborators) data = Ok content.
Proof.
  intros w.
  apply (doRun_formula_reads_back (H := demo.collaborators) sample.recipe
           (demo.hosting false) w).
  by vm_compute.
Defined.

(** ** What the publisher sends *)

Section Sends.
Context `{Collaborators}.

Lemma doPublish_calls (formula : artifact.Artifact) (cl : client.Client) (w : World) :
  Brews (doPublish formula cl w).2 = Brews w
  ∧ heap (doPublish formula cl w).2 = heap w
  ∧ Artifacts (doPublish formula cl w).2 = Artifacts w
  ∧ dirs (doPublish formula cl w).2 = dirs w
  ∧ files (doPublish formula cl w).2 = files w
  ∧ ∃ calls,
      network (doPublish formula cl w).2 = (network w ++ calls)%list
      ∧ (calls = []
         ∨ ∃ commit, isCreateFile commit = true
             ∧ (calls = [commit]
                ∨ ∃ pr, isCreateFile pr = false ∧ calls = [commit; pr]))
      ∧ ((doPublish formula cl w).1 = Ok tt → calls ≠ []).
Proof.
  unfold doPublish, ReadFile, call_CreateFile, call_OpenPullRequest.
  unfold mbind, M_bind, bind, lift, get, fail, mret, M_ret, ret, modify.
  repeat case_match; simplify_eq/=; repeat (split; [done|]).
  all: first
    [ exists []; rewrite app_nil_r; by repeat split; try left
    | eexists [_]; split; [done|]; split; [|done]; right; eexists; split; [|by left]; done
    | eexists [_; _]; rewrite <- app_assoc; split; [done|]; split; [|done]; right;
      eexists; split; [|right; eexists; split; [|done]]; done ].
Qed.

(** The skip tests of [doPublish] come first. *)
Lemma doPublish_skip_upload formula cl w brew :
  artifact.Extra_Homebrew formula brewConfigExtra = Ok brew →
  Homebrew.SkipUpload brew = "true"
  ∨ (Homebrew.SkipUpload brew = "auto" ∧ Prerelease w ≠ "") →
  ∃ reason, doPublish formula cl w = (Err (ErrSkip reason), w).
Proof.
  intros Hbrew Hskip. unfold doPublish.
  unfold mbind, M_bind, bind, lift, get, fail. rewrite Hbrew.
  destruct Hskip as [->|[-> Hpre]].
  - rewrite TrimSpace_true. change (String.eqb "true" "true") with true. by eexists.
  - rewrite TrimSpace_auto. change (String.eqb "auto" "true") with false.
    change (String.eqb "auto" "auto") with true. cbv beta iota.
    destruct (String.eqb_spec (Prerelease w) "") as [|_]; [done|]. by eexists.
Qed.


End Sends.

(** X12: [doPublish] leaves the configuration, the registry and the file
    system as they are.  It sends nothing, or one file creation, or one file
    creation followed by one pull request; when it returns without error, the
    file creation has been sent. *)
Theorem doPublish_sends `{Collaborators} (formula : artifact.Artifact)
    (cl : client.Client) (w : World) :
  Brews (doPublish formula cl w).2 = Brews w
  ∧ heap (doPublish formula cl w).2 = heap w
  ∧ Artifacts (doPublish formula cl w).2 = Artifacts w
  ∧ dirs (doPublish formula cl w).2 = dirs w
  ∧ files (doPublish formula cl w).2 = files w
  ∧ ∃ calls,
      network (doPublish formula cl w).2 = (network w ++ calls)%list
      ∧ (calls = []
         ∨ ∃ commit, isCreateFile commit = true
             ∧ (calls = [commit]
                ∨ ∃ pr, isCreateFile pr = false ∧ calls = [commit; pr]))
      ∧ ((doPublish formula cl w).1 = Ok tt → calls ≠ []).
Proof. apply doPublish_calls. Qed.



(** ** The publication of all formulas *)

Section PublishAllFacts.
Context `{Collaborators}.
Context {SkipMemento : Type}.
Context (Remember : SkipMemento → error → SkipMemento).
Context (Evaluate : SkipMemento → result unit).

Lemma publishAll_loop_calls (formulas : list artifact.Artifact) (cl : client.Client)
    (skips : SkipMemento) (w : World) :
  Brews (publishAll_loop Remember Evaluate formulas cl skips w).2 = Brews w
  ∧ heap (publishAll_loop Remember Evaluate formulas cl skips w).2 = heap w
  ∧ Artifacts (publishAll_loop Remember Evaluate formulas cl skips w).2 = Artifacts w
  ∧ dirs (publishAll_loop Remember Evaluate formulas cl skips w).2 = dirs w
  ∧ files (publishAll_loop Remember Evaluate formulas cl skips w).2 = files w
  ∧ ∃ calls,
      network (publishAll_loop Remember Evaluate formulas cl skips w).2
      = (network w ++ calls)%list
      ∧ (length calls ≤ 2 * length formulas)%nat.
Proof.
  revert skips w. induction formulas as [|formula rest IH]; intros skips w.
  - cbn. repeat (split; [done|]). exists []. by rewrite app_nil_r.
  - cbn [publishAll_loop].
    destruct (doPublish_calls formula cl w)
      as (Hbrews & Hheap & Harts & Hdirs & Hfiles & calls & Hnet & Hcalls & _).
    assert (length calls ≤ 2)%nat as Hlen.
    { destruct Hcalls as [->|(c & _ & [->|(pr & _ & ->)])]; cbn; lia. }
    destruct (doPublish formula cl w) as [[[]|e] w1]; cbn [snd] in *.
    + destruct (IH skips w1) as (? & ? & ? & ? & ? & calls' & Hnet' & Hlen').
      repeat (split; [congruence|]). exists (calls ++ calls')%list.
      rewrite Hnet', Hnet, <- app_assoc, length_app. split; [done|]. cbn. lia.
    + destruct (IsSkip e).
      * destruct (IH (Remember skips e) w1) as (? & ? & ? & ? & ? & calls' & Hnet' & Hlen').
        repeat (split; [congruence|]). exists (calls ++ calls')%list.
        rewrite Hnet', Hnet, <- app_assoc, length_app. split; [done|]. cbn. lia.
      * cbn [snd]. repeat (split; [done|]). exists calls. split; [done|]. cbn. lia.
Qed.

End PublishAllFacts.

(** X14: a formula that is to be skipped does not end [publishAll]: its
    skip is remembered, nothing is sent for it, and the loop goes on with
    the formulas after it. *)
Theorem publishAll_skip_goes_on `{Collaborators} {SkipMemento : Type}
    (Remember : SkipMemento → error → SkipMemento)
    (Evaluate : SkipMemento → result unit)
    (formula : artifact.Artifact) (rest : list artifact.Artifact)
    (cl : client.Client) (skips : SkipMemento) (w : World) (brew : Homebrew.t) :
  artifact.Extra_Homebrew formula brewConfigExtra = Ok brew →
  Homebrew.SkipUpload brew = "true"
  ∨ (Homebrew.SkipUpload brew = "auto" ∧ Prerelease w ≠ "") →
  ∃ reason,
    publishAll_loop Remember Evaluate (formula :: rest) cl skips w
    = publishAll_loop Remember Evaluate rest cl (Remember skips (ErrSkip reason)) w.
Proof.
  intros Hbrew Hskip.
  destruct (doPublish_skip_upload formula cl w brew Hbrew Hskip) as [reason Hpub].
  exists reason. cbn [publishAll_loop]. by rewrite Hpub.
Qed.

Lemma publishAll_skip_goes_on_witness :
  let w := demo.rendered sample.recipe "" in
  (∃ reason,
     publishAll_loop (H := demo.collaborators) sample3.Remember sample3.Evaluate
       sample3.formulas (demo.hosting false) [] w
     = publishAll_loop (H := demo.collaborators) sample3.Remember sample3.Evaluate
         [demo.formula sample.recipe] (demo.hosting false)
         (sample3.Remember [] (ErrSkip reason)) w)
  ∧ length (network
              (publishAll_loop (H := demo.collaborators) sample3.Remember
                 sample3.Evaluate sample3.formulas (demo.hosting false) [] w).2) = 1%nat.
Proof.
  intros w. split; [|by vm_compute].
  apply (publishAll_skip_goes_on (H := demo.collaborators) sample3.Remember
           sample3.Evaluate (demo.formula sample3.skipping) [demo.formula sample.recipe]
           (demo.hosting false) [] w sample3.skipping).
  - reflexivity.
  - left. reflexivity.
Defined.

(** X15: [publishAll] leaves the configuration, the registry and the file
    system as they are, and sends at most two calls for each formula
    artifact of the registry; artifacts of another kind are not published. *)
Theorem publishAll_sends `{Collaborators} {SkipMemento : Type}
    (Remember : SkipMemento → error → SkipMemento)
    (Evaluate : SkipMemento → result unit)
    (empty : SkipMemento) (cl : client.Client) (w : World) :
  Brews (publishAll Remember Evaluate empty cl w).2 = Brews w
  ∧ heap (publishAll Remember Evaluate empty cl w).2 = heap w
  ∧ Artifacts (publishAll Remember Evaluate empty cl w).2 = Artifacts w
  ∧ dirs (publishAll Remember Evaluate empty cl w).2 = dirs w
  ∧ files (publishAll Remember Evaluate empty cl w).2 = files w
  ∧ ∃ calls,
      network (publishAll Remember Evaluate empty cl w).2 = (network w ++ calls)%list
      ∧ (length calls
         ≤ 2 * length (List.filter (artifact.ByType artifact.BrewTap) (Artifacts w)))%nat.
Proof. apply publishAll_loop_calls. Qed.

(** ** Defaults *)

Section DefaultFacts.
Variable commitauthor_Default : CommitAuthor.t → CommitAuthor.t.
Variable ProjectName : string.



End DefaultFacts.


Lemma Default_recipe_idempotent (commitauthor_Default : CommitAuthor.t → CommitAuthor.t)
    (ProjectName : string) (d : declaredRecipe) :
  (∀ a, commitauthor_Default (commitauthor_Default a) = commitauthor_Default a) →
  (Default_recipe commitauthor_Default ProjectName
     (Default_recipe commitauthor_Default ProjectName d).1).1
  = (Default_recipe commitauthor_Default ProjectName d).1.
Proof.
  intros Hauthor. destruct d as [r tap].
  destruct r as [name ? ? message ? ? ? ? ? ? ? ? ? ? ? ? ? ? ? ? ? goarm goamd64 ? ?].
  destruct name as [|? ?], message as [|? ?], goarm as [|? ?],
         goamd64 as [|? ?], ProjectName as [|? ?].
  all: unfold Default_recipe at 2 3; Default_fields.
  all: destruct (bool_decide (tap ≠ zeroRepoRef)) eqn:Htap.
  all: cbv [fst]; unfold Default_recipe; Default_fields.
  all: rewrite ?Htap; by rewrite ?Hauthor.
Qed.

(** X17: [Pipe.Default] can be applied again without changing any recipe,
    as long as applying the default of the commit author again changes
    nothing. *)
Theorem Default_idempotent (commitauthor_Default : CommitAuthor.t → CommitAuthor.t)
    (ProjectName : string) (brews : list declaredRecipe) :
  (∀ a, commitauthor_Default (commitauthor_Default a) = commitauthor_Default a) →
  (Default commitauthor_Default ProjectName
     (Default commitauthor_Default ProjectName brews).1).1
  = (Default commitauthor_Default ProjectName brews).1.
Proof.
  intros Hauthor. unfold Default. cbn [fst]. rewrite <- list_fmap_compose.
  apply list_fmap_ext. intros i d _. cbn [compose].
  by apply Default_recipe_idempotent.
Qed.

Lemma Default_idempotent_witness :
  (Default id "foo" (Default id "foo" [sample3.declared]).1).1
  = (Default id "foo" [sample3.declared]).1
  ∧ Homebrew.Repository <$> (recipe <$> (Default id "foo" [sample3.declared]).1)
    = [demo.repo "tap" "" false].
Proof.
  split; [|by vm_compute].
  apply (Default_idempotent id "foo" [sample3.declared]). reflexivity.
Defined.

(** ** The texts [sanitize] leaves as they are *)

Lemma lastByte_app_cons (a : string) (c : ascii) (b : string) :
  lastByte (a +:+ String c b) = lastByte (String c b).
Proof.
  induction a as [|d a IH]; [done|]. rewrite append_cons.
  destruct a as [|e a']; [done|]. exact IH.
Qed.

Lemma writeLines_terminated (ls : list string) : terminated (writeLines ls).
Proof.
  induction ls as [|l ls IH]; [by left|]. right. cbn [writeLines].
  rewrite lastByte_app_cons. destruct IH as [->|IH]; [done|].
  destruct (writeLines ls) as [|c w]; [done|]. exact IH.
Qed.

Lemma writeLines_rawLines (content : string) :
  terminated content →
  Forall (λ l, lastByte l ≠ Some " "%char) (rawLines content) →
  writeLines (rawLines content) = content.
Proof.
  induction content as [|c rest IH]; [done|]. intros [?|Hlast]; [done|].
  assert (terminated rest) as Hrest.
  { destruct rest as [|d rest']; [by left|]. by right. }
  rewrite rawLines_cons. destruct (Ascii.eqb_spec c newline) as [->|Hc].
  - intros [_ Hls]%Forall_cons. cbn [writeLines]. by rewrite (IH Hrest Hls).
  - destruct rest as [|d rest'].
    { cbn in Hlast. congruence. }
    specialize (IH Hrest).
    destruct (rawLines (String d rest')) as [|l ls] eqn:Hraw.
    { intros _. by specialize (IH (Forall_nil_2 _)). }
    intros [Hl Hls]%Forall_cons. cbn [writeLines] in *.
    rewrite (TrimRight_fixed _ Hl), append_cons. f_equal.
    rewrite <- IH.
    + rewrite TrimRight_fixed; [done|]. destruct l as [|e l']; [done|]. exact Hl.
    + constructor; [|done]. destruct l as [|e l']; [done|]. exact Hl.
Qed.

Lemma fmap_fixed {A} (f : A → A) (l : list A) : f <$> l = l → Forall (λ x, f x = x) l.
Proof.
  induction l as [|x l IH]; [by constructor|]. cbn. intros [= Hx Hl].
  constructor; [done|]. by apply IH.
Qed.

Lemma length_dropCR_carriageReturn (l : string) :
  lastByte l = Some carriageReturn → S (String.length (dropCR l)) = String.length l.
Proof.
  induction l as [|c l IH]; [done|]. destruct l as [|d l'].
  - cbn. by intros [= ->].
  - intros Hlast.
    change (dropCR (String c (String d l'))) with (String c (dropCR (String d l'))).
    cbn [String.length]. f_equal. by apply IH.
Qed.

(** X18: [sanitize] gives a text back as it is exactly when every line of it
    fits the scanner, the text is empty or ends at the end of a line, and
    no line ends in a space or in a carriage return. *)
Theorem sanitize_fixed (content : string) :
  sanitize content = Ok content
  ↔ forallb fits (rawLines content) = true
    ∧ terminated content
    ∧ Forall cleanLine (rawLines content).
Proof.
  split.
  - intros Hsan. destruct (rawLines_sanitize _ _ Hsan) as (Hfit & Hout & Hlines).
    split; [done|]. split.
    { rewrite Hout. apply writeLines_terminated. }
    rewrite <- list_fmap_compose in Hlines. symmetry in Hlines.
    apply fmap_fixed in Hlines. eapply Forall_impl; [exact Hlines|].
    intros l Hl. cbn in Hl. split.
    + rewrite <- Hl. apply lastByte_TrimRight.
    + intros Hcr%length_dropCR_carriageReturn.
      pose proof (length_TrimRight (dropCR l) " ") as Hle. rewrite Hl in Hle. lia.
  - intros (Hfit & Hend & Hclean). unfold sanitize. rewrite Hfit.
    rewrite dropCR_fixed_all.
    + f_equal. apply writeLines_rawLines; [done|].
      eapply Forall_impl; [exact Hclean|]. by intros l [? ?].
    + intros t Ht. rewrite Forall_forall in Hclean. by destruct (Hclean t Ht).
Qed.
